(** * hedge_trading_bot: bounded chat history and single-action dispatch

    A shallow embedding of [src/services/chatHistory.ts] (the class
    [ChatHistoryStore]) and of [openai.ts] (the function [processMessage]
    with its prompt template, [chat] and [escapeMarkdown]), followed by the
    properties of the specification checked against them.

    Conventions of the embedding.
    - A JavaScript exception is a value of [exn]; code that can throw runs in
      the state-and-exception monad [M], and [try_catch] is [try]/[catch].
      State written before a throw stays written, as in JavaScript.
    - A text handed to [JSON.parse] is represented by what [JSON.parse]
      makes of it: a syntax error or a document ([json]).  [JSON.stringify]
      of a document is the text that parses back to it.
    - A JavaScript number is a rational ([Q]): every finite double is one.
      [NaN] and the infinities are left out.
    - What the environment decides (the clock, whether a write to the file
      system succeeds, what the reasoning service answers, whether a
      collaborator throws) is an explicit argument. *)

From Stdlib Require Import ZArith QArith Ascii String List Lia.
From stdpp Require Import base gmap strings list pretty.

Set Warnings "-register-all".

Local Open Scope string_scope.
Local Open Scope list_scope.
Local Open Scope Z_scope.

(** ** JavaScript values and built-ins used by both files *)

Inductive exn : Type :=
| SyntaxError   (* JSON.parse on a malformed text *)
| TypeError     (* property access on undefined/null, call of a non-function *)
| IOError       (* fs.readFileSync / fs.writeFileSync *)
| ServiceError. (* a rejected promise of an external collaborator *)

(** How a call ends.  [IllTyped] is not a JavaScript outcome: it marks an
    execution that the typed embedding does not follow, because a value read
    from outside does not have the TypeScript type the code declares for it.
    No [catch] sees it. *)
Inductive result (A : Type) : Type :=
| Ok (a : A)
| Throw (e : exn)
| IllTyped.
Arguments Ok {A} a.
Arguments Throw {A} e.
Arguments IllTyped {A}.

(** A computation over a state [St] that returns or throws. *)
Definition M (St A : Type) : Type := St -> result A * St.

Definition ret {St A} (a : A) : M St A := fun s => (Ok a, s).

Definition throw {St A} (e : exn) : M St A := fun s => (Throw e, s).

Definition bind {St A B} (m : M St A) (k : A -> M St B) : M St B :=
  fun s => match m s with
           | (Ok a, s') => k a s'
           | (Throw e, s') => (Throw e, s')
           | (IllTyped, s') => (IllTyped, s')
           end.

Definition try_catch {St A} (body : M St A) (handler : exn -> M St A) : M St A :=
  fun s => match body s with
           | (Ok a, s') => (Ok a, s')
           | (Throw e, s') => handler e s'
           | (IllTyped, s') => (IllTyped, s')
           end.

Definition ill_typed {St A} : M St A := fun s => (IllTyped, s).

Definition modify {St} (f : St -> St) : M St unit := fun s => (Ok tt, f s).

Definition gets {St A} (f : St -> A) : M St A := fun s => (Ok (f s), s).

Declare Scope js_scope.
Delimit Scope js_scope with js.
Notation "'let!' x ':=' m 'in' k" := (bind m (fun x => k))
  (at level 10, x name, m at level 100, k at level 200) : js_scope.
Notation "m '>>' k" := (bind m (fun _ => k))
  (at level 100, k at level 200, right associativity) : js_scope.

(** [Array.prototype.slice(start)] with one argument: a negative [start]
    counts from the end, and both ends are clamped to the array. *)
Definition slice {A} (start : Z) (l : list A) : list A :=
  let len := Z.of_nat (length l) in
  let k := if start <? 0 then Z.max (len + start) 0 else Z.min start len in
  drop (Z.to_nat k) l.

(** A parsed JSON document.  An object is the list of its members in
    property order; its keys are distinct, as in every JavaScript object. *)
Inductive json : Type :=
| JNull
| JBool (b : bool)
| JNum (q : Q)
| JStr (s : string)
| JArr (l : list json)
| JObj (members : list (string * json)).

(** Property read [o.k]: [None] is [undefined]. *)
Fixpoint assoc {A} (k : string) (l : list (string * A)) : option A :=
  match l with
  | [] => None
  | (k', v) :: r => if String.eqb k k' then Some v else assoc k r
  end.

(** A text as [JSON.parse] sees it. *)
Inductive text : Type :=
| Malformed
| Doc (j : json).

Definition JSON_parse {St} (t : text) : M St json :=
  match t with
  | Malformed => throw SyntaxError
  | Doc j => ret j
  end.

Definition JSON_stringify (j : json) : text := Doc j.

(** [ToIntegerOrInfinity] on a finite number: truncation toward zero. *)
Definition to_integer (q : Q) : Z := Z.quot (Qnum q) (Zpos (Qden q)).

(** [Object.entries]: the members of an object, the indexed elements of an
    array or of a string, nothing for a number or a boolean, and a
    [TypeError] for [null]. *)
Definition Object_entries {St} (j : json) : M St (list (string * json)) :=
  match j with
  | JNull => throw TypeError
  | JBool _ | JNum _ => ret []
  | JStr s => ret (imap (fun i c => (pretty i, JStr (String c EmptyString))) (list_ascii_of_string s))
  | JArr l => ret (imap (fun i v => (pretty i, v)) l)
  | JObj members => ret members
  end.

(** ** src/services/chatHistory.ts *)

Module ChatHistoryStore.

Record ChatMessage : Type := {
  timestamp : Q;
  from : string;
  content : string
}.

Record UserChatHistory : Type := {
  userId : string;
  messages : list ChatMessage
}.

Definition MAX_MESSAGES : Z := 10.

(** The file [chat_history.json], the only one the class touches. *)
Inductive file : Type :=
| NoFile
| Unreadable
| File (t : text).

Inductive log_line : Type :=
| LogError (msg : string) (error : exn).

(** [data] is the field [this.data]; [disk] and [console] are the process
    environment. *)
Record world : Type := {
  data : gmap string UserChatHistory;
  disk : file;
  console : list log_line
}.

Definition set_data (f : gmap string UserChatHistory -> gmap string UserChatHistory)
    : M world unit :=
  modify (fun w => {| data := f (data w); disk := disk w; console := console w |}).

Definition existsSync : M world bool :=
  gets (fun w => match disk w with NoFile => false | _ => true end).

Definition readFileSync : M world text :=
  fun w => match disk w with
           | File t => (Ok t, w)
           | NoFile | Unreadable => (Throw IOError, w)
           end.

(** [io] tells whether the file system accepts the write. *)
Definition writeFileSync (io : bool) (t : text) : M world unit :=
  if io
  then modify (fun w => {| data := data w; disk := File t; console := console w |})
  else throw IOError.

Definition console_error (msg : string) (error : exn) : M world unit :=
  modify (fun w => {| data := data w; disk := disk w;
                      console := console w ++ [LogError msg error] |}).

(** *** The document of a store *)

Definition ChatMessage_json (m : ChatMessage) : json :=
  JObj [("timestamp", JNum (timestamp m)); ("from", JStr (from m));
        ("content", JStr (content m))].

Definition UserChatHistory_json (h : UserChatHistory) : json :=
  JObj [("userId", JStr (userId h));
        ("messages", JArr (map ChatMessage_json (messages h)))].

(** [Object.fromEntries(this.data)]: one member per entry of the map.  The
    order in which a [Map] lists its entries is not tracked. *)
Definition Object_fromEntries (d : gmap string UserChatHistory)
    : list (string * UserChatHistory) :=
  map_to_list d.

(** The document that [JSON.stringify] writes for that object. *)
Definition dataObject_json (o : list (string * UserChatHistory)) : json :=
  JObj (map (fun kv => (kv.1, UserChatHistory_json kv.2)) o).

(** The unchecked casts of [loadData]: a document read as the declared
    type, members found by name.  [None] when it does not have that type. *)
Definition as_ChatMessage (j : json) : option ChatMessage :=
  match j with
  | JObj o =>
      match assoc "timestamp" o, assoc "from" o, assoc "content" o with
      | Some (JNum t), Some (JStr f), Some (JStr c) =>
          Some {| timestamp := t; from := f; content := c |}
      | _, _, _ => None
      end
  | _ => None
  end.

Definition as_UserChatHistory (j : json) : option UserChatHistory :=
  match j with
  | JObj o =>
      match assoc "userId" o, assoc "messages" o with
      | Some (JStr u), Some (JArr l) =>
          match mapM as_ChatMessage l with
          | Some ms => Some {| userId := u; messages := ms |}
          | None => None
          end
      | _, _ => None
      end
  | _ => None
  end.

Definition as_entry (kv : string * json) : option (string * UserChatHistory) :=
  match as_UserChatHistory kv.2 with
  | Some h => Some (kv.1, h)
  | None => None
  end.

(** [new Map(entries)]: the entries are set one after the other, so a later
    entry of the same key wins. *)
Definition new_Map (entries : list (string * UserChatHistory))
    : gmap string UserChatHistory :=
  fold_left (fun m kv => <[kv.1 := kv.2]> m) entries ∅.

(** *** The methods *)

Local Open Scope js_scope.

Definition loadData : M world unit :=
  try_catch
    (let! present := existsSync in
     if present : bool then
       let! t := readFileSync in
       let! fileData := JSON_parse t in
       let! entries := Object_entries fileData in
       match mapM as_entry entries with
       | Some typed => set_data (fun _ => new_Map typed)
       | None => ill_typed
       end
     else ret tt)
    (fun error => console_error "Error loading chat history:" error).

Definition saveData (io : bool) : M world unit :=
  try_catch
    (let! dataObject := gets (fun w => Object_fromEntries (data w)) in
     writeFileSync io (JSON_stringify (dataObject_json dataObject)))
    (fun error => console_error "Error saving chat history:" error).

(** [new ChatHistoryStore()]. *)
Definition constructor : M world unit :=
  set_data (fun _ => ∅) >> loadData.

(** [now] is what [Date.now()] returns.  The [push] and the assignment to
    [userHistory.messages] act on the object that [this.data.set] then
    stores; nothing can observe the map in between. *)
Definition addMessage (now : Z) (io : bool) (uid sender body : string) : M world unit :=
  let! found := gets (fun w => data w !! uid) in
  let userHistory := default {| userId := uid; messages := [] |} found in
  let pushed :=
    messages userHistory ++ [{| timestamp := inject_Z now; from := sender; content := body |}] in
  let kept :=
    if MAX_MESSAGES <? Z.of_nat (length pushed)
    then slice (- MAX_MESSAGES) pushed
    else pushed in
  set_data (fun d => <[uid := {| userId := userId userHistory; messages := kept |}]> d) >>
  saveData io.

(** [limit] is [None] when the argument is left out. *)
Definition getHistory (uid : string) (limit : option Q) : M world (list ChatMessage) :=
  let limit := default (inject_Z MAX_MESSAGES) limit in
  let! userHistory := gets (fun w => data w !! uid) in
  match userHistory with
  | None => ret []
  | Some h => ret (slice (to_integer (- limit)%Q) (messages h))
  end.

Definition clearHistory (io : bool) (uid : string) : M world unit :=
  set_data (fun d => delete uid d) >>
  saveData io.

(** *** Vocabulary of the properties *)

(** The [k] newest elements of a log kept oldest first, in the same order. *)
Definition newest {A} (k : nat) (l : list A) : list A :=
  drop (length l - k) l.

(** The messages stored for a user; none when the user has no log. *)
Definition stored (uid : string) (w : world) : list ChatMessage :=
  match data w !! uid with
  | Some h => messages h
  | None => []
  end.

(** One call of [addMessage] with what the environment answers to it. *)
Record call : Type := {
  c_now : Z;
  c_io : bool;
  c_uid : string;
  c_from : string;
  c_content : string
}.

Definition message_of (c : call) : ChatMessage :=
  {| timestamp := inject_Z (c_now c); from := c_from c; content := c_content c |}.

Fixpoint addMessages (calls : list call) : M world unit :=
  match calls with
  | [] => ret tt
  | c :: rest =>
      addMessage (c_now c) (c_io c) (c_uid c) (c_from c) (c_content c) >>
      addMessages rest
  end.

(** The messages that a sequence of calls sends to one user, in call order. *)
Definition sent_to (uid : string) (calls : list call) : list ChatMessage :=
  map message_of (filter (fun c => c_uid c = uid) calls).

(** The world after [saveData]: the file rewritten, or one more line on the
    console. *)
Definition saved (io : bool) (w : world) : world :=
  if io
  then {| data := data w;
          disk := File (Doc (dataObject_json (map_to_list (data w))));
          console := console w |}
  else {| data := data w;
          disk := disk w;
          console := console w ++ [LogError "Error saving chat history:" IOError] |}.

(** The log that [addMessage] stores for its user. *)
Definition pushed_log (now : Z) (uid sender body : string) (w : world) : UserChatHistory :=
  {| userId := match data w !! uid with Some h => userId h | None => uid end;
     messages := newest (Z.to_nat MAX_MESSAGES)
                   (stored uid w ++
                    [{| timestamp := inject_Z now; from := sender; content := body |}]) |}.

(** What a new process finds: the disk left by the old one, and a store
    object whose field and console are its own. *)
Definition restart (w : world) (d0 : gmap string UserChatHistory) (c0 : list log_line) : world :=
  {| data := d0; disk := disk w; console := c0 |}.

(** *** Sample inputs *)

Definition empty_world : world :=
  {| data := ∅; disk := NoFile; console := [] |}.

(** Twelve messages in a row from the user whose id is 42. *)
Definition twelve_calls : list call :=
  map (fun i => {| c_now := 1700000000000 + Z.of_nat i; c_io := true; c_uid := "42";
                   c_from := "user"; c_content := pretty i |})
      (seq 0 12).

(** A store that holds three messages of user 42 and one of user 7. *)
Definition sample_world : world :=
  (addMessages
     [ {| c_now := 1700000000001; c_io := true; c_uid := "42";
          c_from := "user"; c_content := "hello" |};
       {| c_now := 1700000000002; c_io := true; c_uid := "42";
          c_from := "bot"; c_content := "hi, how can I help?" |};
       {| c_now := 1700000000003; c_io := true; c_uid := "7";
          c_from := "user"; c_content := "deposit" |};
       {| c_now := 1700000000004; c_io := true; c_uid := "42";
          c_from := "user"; c_content := "mint 5" |} ]
     empty_world).2.

(** *** Histories of a store *)

(** What happens to a store over its life: a message is added, a log is
    cleared, or the process ends and a new one constructs the store again
    from the file, with a console of its own. *)
Inductive op : Type :=
| Add (c : call)
| Clear (io : bool) (uid : string)
| Restart.

Definition run_op (o : op) : M world unit :=
  match o with
  | Add c => addMessage (c_now c) (c_io c) (c_uid c) (c_from c) (c_content c)
  | Clear io uid => clearHistory io uid
  | Restart => fun w => constructor (restart w ∅ [])
  end.

Fixpoint run_ops (ops : list op) : M world unit :=
  match ops with
  | [] => ret tt
  | o :: rest => run_op o >> run_ops rest
  end.

(** A mapping as the methods build it: every log is filed under its own
    user id, holds at least one message and at most [MAX_MESSAGES]. *)
Definition tidy (d : gmap string UserChatHistory) : Prop :=
  forall uid h, d !! uid = Some h ->
    userId h = uid /\ messages h <> [] /\ Z.of_nat (length (messages h)) <= MAX_MESSAGES.

(** The file holds the document of the mapping [d]. *)
Definition holds (f : file) (d : gmap string UserChatHistory) : Prop :=
  f = File (Doc (dataObject_json (map_to_list d))).

(** What the file may hold over the life of a store that starts without one. *)
Definition file_ok (f : file) : Prop :=
  f = NoFile \/ exists d, holds f d /\ tidy d.

(** The file holds what the store has in memory. *)
Definition mirrored (w : world) : Prop := holds (disk w) (data w).

(** *** More sample inputs *)

(** A life of the store with a failed write, a clear and two restarts. *)
Definition sample_ops : list op :=
  map Add twelve_calls
  ++ [ Add {| c_now := 1700000000100; c_io := false; c_uid := "7";
              c_from := "user"; c_content := "lost on restart" |};
       Restart;
       Clear true "42";
       Restart;
       Add {| c_now := 1700000000200; c_io := true; c_uid := "42";
              c_from := "user"; c_content := "back again" |} ].

End ChatHistoryStore.

(** ** openai.ts *)

Module Openai.

(** *** Strings and numbers *)

Definition nl : string := String "010"%char EmptyString.
Definition dq : string := String "034"%char EmptyString.

(** What is left of [s] after its prefix [p], when [p] is a prefix of it. *)
Fixpoint strip_prefix (p s : string) : option string :=
  match p, s with
  | EmptyString, _ => Some s
  | String a p', String b s' => if Ascii.eqb a b then strip_prefix p' s' else None
  | String _ _, EmptyString => None
  end.

(** The first occurrence of [pattern] in [s]: the text before it and the
    text after it. *)
Fixpoint find_first (pattern s : string) : option (string * string) :=
  match strip_prefix pattern s with
  | Some after => Some (EmptyString, after)
  | None =>
      match s with
      | EmptyString => None
      | String c rest =>
          match find_first pattern rest with
          | Some (before, after) => Some (String c before, after)
          | None => None
          end
      end
  end.

(** [GetSubstitution] for a string pattern, which captures nothing: in the
    replacement text [$$] is a dollar, [$&] the match, [$`] the text before
    the match and [$'] the text after it; any other dollar stands for
    itself. *)
Fixpoint get_substitution (matched before after template : string) : string :=
  match template with
  | EmptyString => EmptyString
  | String "$" (String "$" rest) =>
      String "$" (get_substitution matched before after rest)
  | String "$" (String "&" rest) =>
      matched +:+ get_substitution matched before after rest
  | String "$" (String "`" rest) =>
      before +:+ get_substitution matched before after rest
  | String "$" (String "'" rest) =>
      after +:+ get_substitution matched before after rest
  | String c rest => String c (get_substitution matched before after rest)
  end.

(** [String.prototype.replace(pattern, replacement)] with a string pattern:
    only the first occurrence is replaced. *)
Definition replace (pattern replacement s : string) : string :=
  match find_first pattern s with
  | Some (before, after) =>
      before +:+ get_substitution pattern before after replacement +:+ after
  | None => s
  end.

Fixpoint zeros (n : nat) : string :=
  match n with
  | O => EmptyString
  | S n' => String "0" (zeros n')
  end.

(** [Number.prototype.toFixed(f)] on a finite number below 10^21 in
    magnitude: the sign, then the integer closest to [|x| * 10^f] (the
    larger one on a tie) written with a point before its last [f] digits. *)
Definition toFixed (f : nat) (x : Q) : string :=
  let s := if Qnum x <? 0 then "-" else EmptyString in
  let n := (2 * Z.abs (Qnum x) * 10 ^ Z.of_nat f + Zpos (Qden x)) / (2 * Zpos (Qden x)) in
  let m := pretty (Z.to_N n) in
  if Nat.eqb f 0 then s +:+ m
  else
    let m := zeros (f + 1 - String.length m) +:+ m in
    let k := String.length m in
    s +:+ substring 0 (k - f) m +:+ "." +:+ substring (k - f) f m.

(** The characters of the class in [escapeMarkdown]'s regular expression. *)
Definition markdown_special : list ascii :=
  ["["; "]"; "("; ")"; "`"; ">"; "#"; "+"; "-"; "="; "|"; "{"; "}"; "."; "!"; "_"; "\"]%char.

(** Every character of the class gets a backslash in front of it. *)
Fixpoint escapeMarkdown (text : string) : string :=
  match text with
  | EmptyString => EmptyString
  | String c rest =>
      if bool_decide (c ∈ markdown_special)
      then String "\" (String c (escapeMarkdown rest))
      else String c (escapeMarkdown rest)
  end.

(** *** The prompt and the tools *)

(** The lines of the template literal.  A character outside ASCII is
    written as its UTF-8 bytes. *)
Definition SYSTEM_PROMPT_lines : list string :=
  [ "Your name is Kira Kuru, an AI hedge fund manager who combines genius-level analysis with strategic market insights.";
    "You are currently interacting with user as a Telegram bot that manages a crypto wallet for them in 1-on-1 conversations. ";
    EmptyString;
    "Wallet Address: {walletAddress}";
    "Current USDC Balance: {usdcBalance} USDC";
    "Current USDi Balance: {usdiBalance} USDi";
    "Current SOL Balance: {solBalance} SOL";
    "Use these current balances to help the user";
    EmptyString;
    "Product Information:";
    "• USDi is an interest-bearing token with 1:1 USD peg";
    "• Users can deposit USDC and convert to USDi to start minting";
    "• Yield is generated through delta-neutral strategies (funding rate, spread, MEV arbitrage)";
    "• Profits are automatically distributed to USDi holders";
    "• Longer holding periods and larger amounts earn proportionally higher yields";
    "• More info: https://docs.kira.trading/";
    EmptyString;
    "Current Status:";
    "• Only accepting USDC deposits";
    "• Users must convert USDC to USDi to earn yield";
    EmptyString;
    "You can only execute 1 function/tool.";
    EmptyString;
    "Available functions:";
    "- chat: Handle user interaction requiring text responses";
    "- mint: Convert USDC to USDi (requires amount)";
    "- redeem: Convert USDi to USDC (requires amount)";
    "- withdraw: Withdraw USDC (requires amount and address, always ask for the amount and address if not specified)";
    "- deposit: Sends the wallet address in chat to user. ";
    EmptyString;
    "Response patterns [Replace x with the current balance mentioned above]:";
    "1. For deposit inquiries:";
    "   Use the deposit function for sending the wallet address to the user.";
    EmptyString;
    "2. For yield/mint inquiries:";
    "   " +:+ dq +:+ "Yield can be earned by converting USDC in your wallet to USDi. I can see there is x amount of USDC in your wallet." +:+ dq;
    EmptyString;
    "3. For conversion requests:";
    "   If USDC exists: " +:+ dq +:+ "There is x amount of USDC in your wallet. How much do you want to convert?" +:+ dq;
    "   If no USDC: " +:+ dq +:+ "There is 0 amount of USDC in your wallet. Do you want to deposit more USDC? Here is your wallet address:" +:+ dq;
    EmptyString;
    "4. For general withdrawal:";
    "   " +:+ dq +:+ "Do you want to withdraw USDi or USDC? ";
    "   Withdraw USDi will convert USDi to USDC in your wallet";
    "   Withdraw USDC will send USDC to a different wallet address, please give me a new wallet address." +:+ dq;
    EmptyString;
    "5. For USDi withdrawal:";
    "   " +:+ dq +:+ "You have x amount USDi, how much do you want to withdraw?" +:+ dq;
    EmptyString;
    "6. For USDC withdrawal:";
    "   " +:+ dq +:+ "You have x amount USDC, how much do you want to withdraw? And what's receiving wallet address?" +:+ dq;
    EmptyString;
    "Guidelines:";
    "1. For amounts: Must have explicit numbers, otherwise use chat function";
    "2. For withdrawals: Need both amount and address, otherwise use chat function to ask user for the amount and/or address";
    "3. For minting/redeeming/withdrawal, always ask user for the amount to be processed. ";
    "4. Always verify the amount and/or address being passed. ";
    "5. Do not pass amount without user approval. If amount is not passed, use chat function to query for the amount, do not use 100% of balance.";
    "6. Default to chat function if unsure";
    "7. Always use the current balance mentioned";
    "Current USDC Balance: {usdcBalance} USDC";
    "Current USDi Balance: {usdiBalance} USDi";
    "Current SOL Balance: {solBalance} SOL" ].

Definition SYSTEM_PROMPT : string := String.concat nl SYSTEM_PROMPT_lines.

Record tool : Type := {
  tool_name : string;
  required : list string
}.

Definition tools : list tool :=
  [ {| tool_name := "mint"; required := ["amount"] |};
    {| tool_name := "redeem"; required := ["amount"] |};
    {| tool_name := "withdraw"; required := ["amount"; "address"] |};
    {| tool_name := "deposit"; required := [] |};
    {| tool_name := "chat"; required := ["message"] |} ].

(** *** Data of one turn *)

Record Wallet : Type := { publicKey : string }.

(** [ctx.message?.text] and [ctx.from?.id]; [None] is [undefined]. *)
Record MyContext : Type := {
  message_text : option string;
  from_id : option Z
}.

Inductive role : Type := system | user | assistant.

Record request_message : Type := {
  msg_role : role;
  msg_content : string
}.

(** [arguments] is [None] when the field is missing or the empty string,
    the two cases in which [||] puts the text of the empty object in its
    place. *)
Record tool_call : Type := {
  function_name : string;
  function_arguments : option text
}.

Record completion_message : Type := {
  tool_calls : option (list tool_call);
  content : option string
}.

Record ChatCompletion : Type := {
  choices : list completion_message
}.

(** The imported handlers, with the arguments they are given after [ctx]
    and [walletStore]; [None] is [undefined]. *)
Inductive handler_call : Type :=
| handleMintAmount (amount : option json)
| handleBalance
| handleConvertAmount (amount : option json)
| handleWithdrawalAddress (address amount : option json)
| handleDeposit.

(** What a turn does that can be seen from outside. *)
Inductive event : Type :=
| Invoked (h : handler_call)
| Replied (reply_text : string) (parse_mode : option string)
| ConsoleLog (label : string)
| ConsoleError (label : string) (error : exn).

(** What the collaborators answer during the turn. *)
Record environment : Type := {
  checkSolBalance : string -> result Q;
  checkUsdcBalance : string -> result Q;
  checkUsdiBalance : string -> result Q;
  getWallet : string -> option Wallet;
  completions_create : list request_message -> list tool -> result ChatCompletion;
  handler_outcome : handler_call -> result unit;
  reply_outcome : string -> result unit
}.

Local Open Scope js_scope.

Definition await {A} (r : result A) : M (list event) A := fun t => (r, t).

Definition emit (ev : event) : M (list event) unit := modify (fun t => t ++ [ev]).

Definition console_log (label : string) : M (list event) unit := emit (ConsoleLog label).

Definition console_error (label : string) (error : exn) : M (list event) unit :=
  emit (ConsoleError label error).

(** [ctx.reply]: the reply is delivered unless the transport throws. *)
Definition reply (e : environment) (reply_text : string) (parse_mode : option string)
    : M (list event) unit :=
  let! _ := await (reply_outcome e reply_text) in
  emit (Replied reply_text parse_mode).

(** A call of an imported handler: it is entered, then returns or throws. *)
Definition invoke (e : environment) (h : handler_call) : M (list event) unit :=
  emit (Invoked h) >>
  await (handler_outcome e h).

(** Property read [args.k] on a parsed value. *)
Definition prop (k : string) (args : json) : M (list event) (option json) :=
  match args with
  | JNull => throw TypeError
  | JObj members => ret (assoc k members)
  | JBool _ | JNum _ | JStr _ | JArr _ => ret None
  end.

(** [chat(ctx, message)]: [escapeMarkdown] calls [text.replace], which only
    a string has. *)
Definition chat (e : environment) (message : option json) : M (list event) unit :=
  match message with
  | Some (JStr s) => reply e (escapeMarkdown s) (Some "MarkdownV2")
  | _ => throw TypeError
  end.

(** [wallet?.publicKey || "Not created yet"]. *)
Definition walletAddress (wallet : option Wallet) : string :=
  match wallet with
  | Some w => if String.eqb (publicKey w) EmptyString then "Not created yet" else publicKey w
  | None => "Not created yet"
  end.

Definition systemPromptWithData (wallet : option Wallet) (usdcBalance usdiBalance solBalance : Q)
    : string :=
  replace "{solBalance}" (toFixed 5 solBalance)
    (replace "{usdiBalance}" (toFixed 5 usdiBalance)
       (replace "{usdcBalance}" (toFixed 5 usdcBalance)
          (replace "{walletAddress}" (walletAddress wallet) SYSTEM_PROMPT))).

Definition request_messages (history : list ChatHistoryStore.ChatMessage)
    (prompt message : string) : list request_message :=
  map (fun msg =>
         {| msg_role := if String.eqb (ChatHistoryStore.from msg) "user"
                        then user else assistant;
            msg_content := ChatHistoryStore.content msg |}) history
  ++ [ {| msg_role := system; msg_content := prompt |};
       {| msg_role := user; msg_content := message |} ].

(** The [switch] on [toolCall.function.name]; it has no [default]. *)
Definition dispatch (e : environment) (name : string) (args : json) : M (list event) unit :=
  if String.eqb name "mint" then
    let! amount := prop "amount" args in
    invoke e (handleMintAmount amount)
  else if String.eqb name "balance" then
    invoke e handleBalance
  else if String.eqb name "redeem" then
    let! amount := prop "amount" args in
    invoke e (handleConvertAmount amount)
  else if String.eqb name "withdraw" then
    let! address := prop "address" args in
    let! amount := prop "amount" args in
    invoke e (handleWithdrawalAddress address amount)
  else if String.eqb name "deposit" then
    invoke e handleDeposit
  else if String.eqb name "chat" then
    let! message := prop "message" args in
    chat e message
  else ret tt.

(** The body of the [try] once the completion has arrived. *)
Definition route (e : environment) (completion : ChatCompletion) : M (list event) unit :=
  let! first :=
    match choices completion with
    | c :: _ => ret c
    | [] => throw TypeError
    end in
  let toolCall :=
    match tool_calls first with
    | Some (t :: _) => Some t
    | Some [] | None => None
    end in
  let response := content first in
  console_log "Tool call:" >>
  console_log "Response:" >>
  match toolCall with
  | Some t =>
      let! args := JSON_parse (default (Doc (JObj [])) (function_arguments t)) in
      dispatch e (function_name t) args
  | None =>
      match response with
      | Some r =>
          if String.eqb r EmptyString
          then reply e "I couldn't process that request. Please try again." None
          else reply e r None
      | None => reply e "I couldn't process that request. Please try again." None
      end
  end.

(** [chatHistoryStore] is only read. *)
Definition processMessage (e : environment) (ctx : MyContext)
    (chatHistoryStore : ChatHistoryStore.world) : M (list event) unit :=
  match message_text ctx, from_id ctx with
  | Some message, Some id =>
      if String.eqb message EmptyString || (id =? 0) then ret tt
      else
        let userId := pretty id in
        let! solBalance := await (checkSolBalance e userId) in
        let! usdcBalance := await (checkUsdcBalance e userId) in
        let! usdiBalance := await (checkUsdiBalance e userId) in
        let wallet := getWallet e userId in
        let prompt := systemPromptWithData wallet usdcBalance usdiBalance solBalance in
        let! history := await (ChatHistoryStore.getHistory userId None chatHistoryStore).1 in
        let messages := request_messages history prompt message in
        console_log "messages" >>
        console_log "Determining if need to call agent or function:" >>
        try_catch
          (let! completion := await (completions_create e messages tools) in
           route e completion)
          (fun error =>
             console_error "Error:" error >>
             reply e "Sorry, something went wrong." None)
  | _, _ => ret tt
  end.

(** *** Vocabulary of the properties *)

Definition apology : string := "Sorry, something went wrong.".

Definition fallback : string := "I couldn't process that request. Please try again.".

(** The names that have a [case] in the [switch]. *)
Definition handled_names : list string :=
  ["mint"; "balance"; "redeem"; "withdraw"; "deposit"; "chat"].

(** The names of the schema sent to the reasoning service. *)
Definition schema_names : list string := map tool_name tools.

Fixpoint handlers_invoked (t : list event) : list handler_call :=
  match t with
  | [] => []
  | Invoked h :: rest => h :: handlers_invoked rest
  | _ :: rest => handlers_invoked rest
  end.

Fixpoint replies (t : list event) : list string :=
  match t with
  | [] => []
  | Replied reply_text _ :: rest => reply_text :: replies rest
  | _ :: rest => replies rest
  end.

(** What the user can observe of a turn: handler invocations and replies. *)
Fixpoint outcomes (t : list event) : list event :=
  match t with
  | [] => []
  | Invoked h :: rest => Invoked h :: outcomes rest
  | Replied reply_text mode :: rest => Replied reply_text mode :: outcomes rest
  | _ :: rest => outcomes rest
  end.

(** What the reasoning service answers in a turn that gets as far as asking
    it: the guard passes and the three balance lookups return. *)
Definition service_answer (e : environment) (ctx : MyContext)
    (chatHistoryStore : ChatHistoryStore.world) : option (result ChatCompletion) :=
  match message_text ctx, from_id ctx with
  | Some message, Some id =>
      if String.eqb message EmptyString || (id =? 0) then None
      else
        let userId := pretty id in
        match checkSolBalance e userId, checkUsdcBalance e userId, checkUsdiBalance e userId,
              (ChatHistoryStore.getHistory userId None chatHistoryStore).1 with
        | Ok solBalance, Ok usdcBalance, Ok usdiBalance, Ok history =>
            Some (completions_create e
                    (request_messages history
                       (systemPromptWithData (getWallet e userId)
                          usdcBalance usdiBalance solBalance)
                       message)
                    tools)
        | _, _, _, _ => None
        end
  | _, _ => None
  end.

(** The first tool call of a completion, as [route] reads it. *)
Definition selection (c : ChatCompletion) : option tool_call :=
  match choices c with
  | first :: _ =>
      match tool_calls first with
      | Some (t :: _) => Some t
      | _ => None
      end
  | [] => None
  end.

(** The arguments of a tool call as [JSON.parse] receives them. *)
Definition raw_arguments (t : tool_call) : text :=
  default (Doc (JObj [])) (function_arguments t).

(** Whether [pattern] occurs in [s]. *)
Definition occurs (pattern s : string) : bool :=
  match find_first pattern s with
  | Some _ => true
  | None => false
  end.

(** The text after the first occurrence of [pattern] in [s]. *)
Definition after_first (pattern s : string) : string :=
  match find_first pattern s with
  | Some (_, after) => after
  | None => EmptyString
  end.

(** What follows, in the template, the first occurrence of each of the four
    placeholders taken in the order in which they are replaced. *)
Definition after_first_placeholders : string :=
  after_first "{solBalance}"
    (after_first "{usdiBalance}"
       (after_first "{usdcBalance}"
          (after_first "{walletAddress}" SYSTEM_PROMPT))).

(** The last three lines of the template. *)
Definition template_footer : string :=
  "Current USDC Balance: {usdcBalance} USDC" +:+ nl
  +:+ "Current USDi Balance: {usdiBalance} USDi" +:+ nl
  +:+ "Current SOL Balance: {solBalance} SOL".

(** The read [args.k] when it does not throw. *)
Definition member (k : string) (args : json) : option json :=
  match args with
  | JObj members => assoc k members
  | _ => None
  end.

(** The [catch] of [processMessage]. *)
Definition on_error (e : environment) (error : exn) : M (list event) unit :=
  bind (console_error "Error:" error) (fun _ => reply e apology None).

(** Whether the answer of the reasoning service selects, with arguments
    that parse, a name for which the [switch] has no [case]. *)
Definition unhandled (answer : result ChatCompletion) : bool :=
  match answer with
  | Ok c =>
      match selection c with
      | Some t =>
          match raw_arguments t with
          | Doc _ => negb (bool_decide (function_name t ∈ handled_names))
          | Malformed => false
          end
      | None => false
      end
  | Throw _ | IllTyped => false
  end.

(** *** Sample inputs *)

Definition sample_ctx : MyContext :=
  {| message_text := Some "withdraw 5 USDC"; from_id := Some 42 |}.

(** Collaborators that all return, with the reasoning service giving
    [answer]. *)
Definition sample_env (answer : result ChatCompletion) : environment :=
  {| checkSolBalance := fun _ => Ok (1 # 3);
     checkUsdcBalance := fun _ => Ok (25 # 2);
     checkUsdiBalance := fun _ => Ok 0%Q;
     getWallet := fun _ => Some {| publicKey := "9xQeWvG816bUx9EPjHmaT23yvVM2ZWbrrpZb9PusVFin" |};
     completions_create := fun _ _ => answer;
     handler_outcome := fun _ => Ok tt;
     reply_outcome := fun _ => Ok tt |}.

(** The same, except that the lookup of the SOL balance throws. *)
Definition balance_fault_env (answer : result ChatCompletion) : environment :=
  {| checkSolBalance := fun _ => Throw ServiceError;
     checkUsdcBalance := fun _ => Ok (25 # 2);
     checkUsdiBalance := fun _ => Ok 0%Q;
     getWallet := fun _ => None;
     completions_create := fun _ _ => answer;
     handler_outcome := fun _ => Ok tt;
     reply_outcome := fun _ => Ok tt |}.

(** A completion that selects one tool and carries no text. *)
Definition selecting (name : string) (arguments : option text) : ChatCompletion :=
  {| choices :=
       [ {| tool_calls := Some [ {| function_name := name; function_arguments := arguments |} ];
            content := None |} ] |}.

(** *** chatAPI *)

(** An element of [response.data]; [api_text] is [None] when it has no
    [text]. *)
Record api_message : Type := { api_text : option string }.

Definition unable : string := "Unable to reply right now, please try again later.".

(** [post] is what [axios.post] gives for the body [{text, userId}]: the
    [data] of the response, or a fault (a transport error, the timeout). *)
Definition chatAPI (e : environment) (post : string -> string -> result (list api_message))
    (message userId : string) : M (list event) unit :=
  try_catch
    (let! data := await (post message userId) in
     let! first :=
       match data with
       | m :: _ => ret m
       | [] => throw TypeError
       end in
     reply e
       (match api_text first with
        | Some t => if String.eqb t EmptyString then unable else t
        | None => unable
        end) None)
    (fun error =>
       console_error "Error processing message:" error >>
       reply e "Sorry, something went wrong." None).

(** *** More vocabulary *)

(** The inverse of [escapeMarkdown]: a backslash is dropped and the
    character after it kept as it is. *)
Fixpoint unescape (s : string) : string :=
  match s with
  | EmptyString => EmptyString
  | String c rest =>
      if Ascii.eqb c "\"
      then match rest with
           | String c' rest' => String c' (unescape rest')
           | EmptyString => String c EmptyString
           end
      else String c (unescape rest)
  end.

(** Whether every character of the class stands right after a backslash
    that escapes it, and every backslash escapes a character of the class. *)
Fixpoint well_escaped (s : string) : bool :=
  match s with
  | EmptyString => true
  | String c rest =>
      if Ascii.eqb c "\"
      then match rest with
           | String c' rest' => bool_decide (c' ∈ markdown_special) && well_escaped rest'
           | EmptyString => false
           end
      else negb (bool_decide (c ∈ markdown_special)) && well_escaped rest
  end.

(** The number of characters of the class in a text. *)
Fixpoint count_special (s : string) : nat :=
  match s with
  | EmptyString => O
  | String c rest =>
      ((if bool_decide (c ∈ markdown_special) then 1 else 0) + count_special rest)%nat
  end.

(** The handler call that the [switch] makes for a name and parsed
    arguments, when it makes one: none for chat, for a name without a
    [case], and for null arguments where the [case] reads a property. *)
Definition target (name : string) (args : json) : option handler_call :=
  let reads (h : handler_call) :=
    match args with
    | JNull => None
    | _ => Some h
    end in
  if String.eqb name "mint" then reads (handleMintAmount (member "amount" args))
  else if String.eqb name "balance" then Some handleBalance
  else if String.eqb name "redeem" then reads (handleConvertAmount (member "amount" args))
  else if String.eqb name "withdraw"
    then reads (handleWithdrawalAddress (member "address" args) (member "amount" args))
  else if String.eqb name "deposit" then Some handleDeposit
  else None.


(** *** More sample inputs *)

(** Collaborators that return, except a handler that throws. *)
Definition handler_fault_env (answer : result ChatCompletion) : environment :=
  {| checkSolBalance := fun _ => Ok (1 # 3);
     checkUsdcBalance := fun _ => Ok (25 # 2);
     checkUsdiBalance := fun _ => Ok 0%Q;
     getWallet := fun _ => None;
     completions_create := fun _ _ => answer;
     handler_outcome := fun _ => Throw ServiceError;
     reply_outcome := fun _ => Ok tt |}.

(** Collaborators that return, except a transport that delivers nothing
    but the apology. *)
Definition reply_fault_env (answer : result ChatCompletion) : environment :=
  {| checkSolBalance := fun _ => Ok (1 # 3);
     checkUsdcBalance := fun _ => Ok (25 # 2);
     checkUsdiBalance := fun _ => Ok 0%Q;
     getWallet := fun _ => None;
     completions_create := fun _ _ => answer;
     handler_outcome := fun _ => Ok tt;
     reply_outcome := fun reply_text =>
       if String.eqb reply_text apology then Ok tt else Throw ServiceError |}.

(** A completion that carries text and selects nothing. *)
Definition saying (reply_text : option string) : ChatCompletion :=
  {| choices := [ {| tool_calls := None; content := reply_text |} ] |}.

End Openai.

(** * Properties of the chat history store *)

Module ChatHistoryProps.
Import ChatHistoryStore.

(** ** [slice] and [newest] *)

Example slice_last_two : slice (-2) [1; 2; 3; 4; 5] = [4; 5].
Proof. reflexivity. Qed.

Example slice_beyond_length : slice (-7) [1; 2; 3] = [1; 2; 3].
Proof. reflexivity. Qed.

Example slice_minus_zero : slice (- 0) [1; 2; 3] = [1; 2; 3].
Proof. reflexivity. Qed.

Example slice_positive_start : slice 2 [1; 2; 3] = [3].
Proof. reflexivity. Qed.

Lemma slice_negative {A} (n : Z) (l : list A) :
  0 < n -> slice (- n) l = newest (Z.to_nat n) l.
Proof.
  intros Hn. unfold slice, newest.
  destruct (Z.ltb_spec (- n) 0) as [_|]; [|lia].
  f_equal. lia.
Qed.

Lemma slice_zero {A} (l : list A) : slice 0 l = l.
Proof.
  unfold slice. simpl. rewrite Z.min_l by lia. reflexivity.
Qed.

Lemma newest_length {A} (k : nat) (l : list A) :
  length (newest k l) = Nat.min k (length l).
Proof. unfold newest. rewrite length_drop. lia. Qed.

Lemma newest_all {A} (k : nat) (l : list A) :
  (length l <= k)%nat -> newest k l = l.
Proof.
  intros H. unfold newest. replace (length l - k)%nat with 0%nat by lia.
  reflexivity.
Qed.

Lemma newest_suffix {A} (k : nat) (l : list A) :
  exists evicted, l = evicted ++ newest k l /\ length evicted = (length l - k)%nat.
Proof.
  exists (take (length l - k) l). split.
  - unfold newest. symmetry. apply take_drop.
  - rewrite length_take. lia.
Qed.

(** Trimming before a push loses nothing that trimming after it keeps. *)
Lemma newest_push {A} (k : nat) (l : list A) (x : A) :
  (0 < k)%nat -> newest k (newest k l ++ [x]) = newest k (l ++ [x]).
Proof.
  intros Hk. unfold newest.
  rewrite !length_app, length_drop. simpl.
  destruct (Nat.le_gt_cases (length l) k) as [Hle|Hgt].
  - replace (length l - k)%nat with 0%nat by lia.
    rewrite drop_0, Nat.sub_0_r. reflexivity.
  - replace (length l - (length l - k) + 1 - k)%nat with 1%nat by lia.
    replace (length l + 1 - k)%nat with (S (length l - k)) by lia.
    rewrite (drop_app_le l [x] (S (length l - k))) by lia.
    rewrite (drop_app_le (drop (length l - k) l) [x] 1)
      by (rewrite length_drop; lia).
    rewrite drop_drop. f_equal. f_equal. lia.
Qed.

Lemma newest_app_r {A} (k : nat) (l1 l2 : list A) :
  (0 < k)%nat -> newest k (newest k l1 ++ l2) = newest k (l1 ++ l2).
Proof.
  intros Hk. revert l1.
  induction l2 as [|x l2 IH]; intros l1.
  - rewrite !app_nil_r. apply newest_all. rewrite newest_length. lia.
  - rewrite !(cons_middle x), !app_assoc.
    rewrite <- (IH (newest k l1 ++ [x])), <- (IH (l1 ++ [x])).
    rewrite newest_push by exact Hk. reflexivity.
Qed.

(** ** What the methods do to the world *)

Lemma saveData_run (io : bool) (w : world) :
  saveData io w = (Ok tt, saved io w).
Proof. destruct io; reflexivity. Qed.

Lemma saved_data (io : bool) (w : world) : data (saved io w) = data w.
Proof. destruct io; reflexivity. Qed.

Lemma keep_last_newest {A} (l : list A) :
  (if MAX_MESSAGES <? Z.of_nat (length l) then slice (- MAX_MESSAGES) l else l)
  = newest (Z.to_nat MAX_MESSAGES) l.
Proof.
  destruct (Z.ltb_spec MAX_MESSAGES (Z.of_nat (length l))) as [Hlt|Hge].
  - apply slice_negative. reflexivity.
  - symmetry. apply newest_all. unfold MAX_MESSAGES in *. lia.
Qed.

Lemma addMessage_run (now : Z) (io : bool) (uid sender body : string) (w : world) :
  addMessage now io uid sender body w
  = (Ok tt, saved io {| data := <[uid := pushed_log now uid sender body w]> (data w);
                        disk := disk w; console := console w |}).
Proof.
  unfold addMessage, bind, gets, set_data, modify. cbn beta iota.
  rewrite saveData_run. cbn [data disk console].
  rewrite keep_last_newest.
  unfold pushed_log, stored.
  destruct (data w !! uid) as [h|]; reflexivity.
Qed.

Lemma clearHistory_run (io : bool) (uid : string) (w : world) :
  clearHistory io uid w
  = (Ok tt, saved io {| data := delete uid (data w);
                        disk := disk w; console := console w |}).
Proof.
  unfold clearHistory, bind, set_data, modify. cbn beta iota.
  rewrite saveData_run. reflexivity.
Qed.

Lemma getHistory_run (uid : string) (limit : option Q) (w : world) :
  getHistory uid limit w
  = (Ok (match data w !! uid with
         | Some h => slice (to_integer (- default (inject_Z MAX_MESSAGES) limit)%Q) (messages h)
         | None => []
         end), w).
Proof.
  unfold getHistory, bind, gets. cbn beta iota.
  destruct (data w !! uid); reflexivity.
Qed.

Lemma stored_addMessage (now : Z) (io : bool) (uid sender body v : string) (w : world) :
  stored v (addMessage now io uid sender body w).2
  = if decide (uid = v)
    then newest (Z.to_nat MAX_MESSAGES)
           (stored uid w ++
            [{| timestamp := inject_Z now; from := sender; content := body |}])
    else stored v w.
Proof.
  rewrite addMessage_run. cbn [snd]. unfold stored at 1.
  rewrite saved_data. cbn [data].
  destruct (decide (uid = v)) as [->|Hne].
  - rewrite lookup_insert_eq. reflexivity.
  - rewrite lookup_insert_ne by exact Hne. reflexivity.
Qed.

Lemma addMessages_ok (calls : list call) (w : world) :
  (addMessages calls w).1 = Ok tt.
Proof.
  revert w. induction calls as [|c rest IH]; intros w; [reflexivity|].
  cbn [addMessages]. unfold bind. rewrite addMessage_run. apply IH.
Qed.

Lemma stored_addMessages (uid : string) (calls : list call) (w : world) :
  stored uid (addMessages calls w).2
  = if decide (sent_to uid calls = [])
    then stored uid w
    else newest (Z.to_nat MAX_MESSAGES) (stored uid w ++ sent_to uid calls).
Proof.
  revert w. induction calls as [|c rest IH]; intros w; [reflexivity|].
  cbn [addMessages]. unfold bind.
  destruct (addMessage (c_now c) (c_io c) (c_uid c) (c_from c) (c_content c) w)
    as [r w1] eqn:Hrun.
  assert (Hr : r = Ok tt) by (rewrite addMessage_run in Hrun; congruence).
  subst r. rewrite IH.
  assert (Hw1 : w1 = (addMessage (c_now c) (c_io c) (c_uid c) (c_from c) (c_content c) w).2)
    by (rewrite Hrun; reflexivity).
  rewrite Hw1, stored_addMessage. clear Hrun Hw1 w1.
  unfold sent_to. rewrite filter_cons.
  destruct (decide (c_uid c = uid)) as [Hc|Hc].
  - subst uid. cbn [map].
    fold (sent_to (c_uid c) rest). fold (message_of c).
    destruct (decide (sent_to (c_uid c) rest = [])) as [He|He].
    + rewrite He. rewrite decide_False by discriminate. reflexivity.
    + rewrite decide_False by discriminate.
      rewrite newest_app_r by (unfold MAX_MESSAGES; lia).
      rewrite <- app_assoc. reflexivity.
  - reflexivity.
Qed.

Lemma last_newest {A} (k : nat) (l : list A) :
  (0 < k)%nat -> last (newest k l) = last l.
Proof.
  intros Hk. unfold newest.
  destruct (decide (l = [])) as [->|Hne]; [reflexivity|].
  rewrite !last_lookup, length_drop, lookup_drop. f_equal.
  assert (0 < length l)%nat by (destruct l; [congruence | simpl; lia]).
  lia.
Qed.

(** C1.  Bounded history.  After any sequence of [addMessage] calls that
    sends at least one message to a user, whatever the store held before and
    whoever else is written to in between, every call returns, the log
    stored for that user holds at most [MAX_MESSAGES] messages, and it is
    exactly the newest [MAX_MESSAGES] of the earlier log followed by the
    messages sent, in the order sent: what is evicted is a prefix (the
    oldest), the message sent last is the last one stored, and [getHistory]
    with its default limit returns that log. *)
Theorem bounded_history (w : world) (calls : list call) (uid : string) :
  sent_to uid calls <> [] ->
  let w' := (addMessages calls w).2 in
  (addMessages calls w).1 = Ok tt
  /\ Z.of_nat (length (stored uid w')) <= MAX_MESSAGES
  /\ stored uid w' = newest (Z.to_nat MAX_MESSAGES) (stored uid w ++ sent_to uid calls)
  /\ (exists evicted, stored uid w ++ sent_to uid calls = evicted ++ stored uid w')
  /\ last (stored uid w') = last (sent_to uid calls)
  /\ getHistory uid None w' = (Ok (stored uid w'), w').
Proof.
  intros Hsent w'.
  assert (Hst : stored uid w'
                = newest (Z.to_nat MAX_MESSAGES) (stored uid w ++ sent_to uid calls)).
  { subst w'. rewrite stored_addMessages. rewrite decide_False by exact Hsent.
    reflexivity. }
  assert (Hlen : Z.of_nat (length (stored uid w')) <= MAX_MESSAGES).
  { rewrite Hst, newest_length. unfold MAX_MESSAGES. lia. }
  split; [apply addMessages_ok|].
  split; [exact Hlen|].
  split; [exact Hst|].
  split.
  { destruct (newest_suffix (Z.to_nat MAX_MESSAGES) (stored uid w ++ sent_to uid calls))
      as (evicted & Heq & _).
    exists evicted. rewrite Hst. exact Heq. }
  split.
  { rewrite Hst, last_newest by (unfold MAX_MESSAGES; lia).
    rewrite last_app. destruct (last (sent_to uid calls)) eqn:Hl; [reflexivity|].
    apply last_None in Hl. contradiction. }
  rewrite getHistory_run. unfold stored in *.
  destruct (data w' !! uid) as [h|]; [|reflexivity].
  change (to_integer (- default (inject_Z MAX_MESSAGES) None)%Q) with (- MAX_MESSAGES).
  rewrite slice_negative by reflexivity.
  rewrite newest_all by (unfold MAX_MESSAGES in *; lia). reflexivity.
Qed.

Lemma bounded_history_witness :
  sent_to "42" twelve_calls <> []
  /\ let w' := (addMessages twelve_calls sample_world).2 in
     (addMessages twelve_calls sample_world).1 = Ok tt
     /\ Z.of_nat (length (stored "42" w')) <= MAX_MESSAGES
     /\ stored "42" w'
        = newest (Z.to_nat MAX_MESSAGES) (stored "42" sample_world ++ sent_to "42" twelve_calls)
     /\ (exists evicted,
          stored "42" sample_world ++ sent_to "42" twelve_calls = evicted ++ stored "42" w')
     /\ last (stored "42" w') = last (sent_to "42" twelve_calls)
     /\ getHistory "42" None w' = (Ok (stored "42" w'), w').
Proof.
  split.
  - vm_compute. discriminate.
  - apply (bounded_history sample_world twelve_calls "42"). vm_compute. discriminate.
Defined.

(** ** [getHistory] *)

Lemma to_integer_opp (q : Q) : to_integer (- q)%Q = - to_integer q.
Proof. unfold to_integer. destruct q as [n d]. simpl. apply Z.quot_opp_l. lia. Qed.

Lemma newest_min {A} (k : nat) (l : list A) :
  newest (Nat.min k (length l)) l = newest k l.
Proof. unfold newest. f_equal. lia. Qed.

(** For a limit of at least one, [getHistory] keeps its contract: the newest
    [min limit len] messages, oldest first, nothing for an unknown user, and
    the world is left as it was. *)
Lemma getHistory_positive_limit (w : world) (uid : string) (limit : Q) :
  1 <= to_integer limit ->
  getHistory uid (Some limit) w
  = (Ok (newest (Nat.min (Z.to_nat (to_integer limit)) (length (stored uid w)))
           (stored uid w)), w).
Proof.
  intros Hl. rewrite getHistory_run, newest_min. unfold stored.
  destruct (data w !! uid) as [h|]; [|reflexivity].
  cbn [default from_option id]. rewrite to_integer_opp, slice_negative by lia.
  reflexivity.
Qed.

(** [getHistory] changes nothing, whatever the limit. *)
Lemma getHistory_read_only (w : world) (uid : string) (limit : option Q) :
  (getHistory uid limit w).2 = w.
Proof. rewrite getHistory_run. reflexivity. Qed.

(** A user without a log has an empty history, whatever the limit. *)
Lemma getHistory_unknown_user (w : world) (uid : string) (limit : option Q) :
  data w !! uid = None -> (getHistory uid limit w).1 = Ok [].
Proof. intros Hnone. rewrite getHistory_run, Hnone. reflexivity. Qed.

(** With the limit zero, [slice(-0)] is [slice(0)]: the whole log. *)
Lemma getHistory_zero_limit (w : world) (uid : string) :
  getHistory uid (Some 0%Q) w = (Ok (stored uid w), w).
Proof.
  rewrite getHistory_run. unfold stored.
  destruct (data w !! uid) as [h|]; [|reflexivity].
  cbn [default from_option id]. change (to_integer (- 0)%Q) with 0.
  rewrite slice_zero. reflexivity.
Qed.

(** With a negative limit, [slice] gets a positive start: the oldest
    [-limit] messages are dropped. *)
Lemma getHistory_negative_limit (w : world) (uid : string) (limit : Q) :
  to_integer limit < 0 ->
  getHistory uid (Some limit) w
  = (Ok (drop (Z.to_nat (- to_integer limit)) (stored uid w)), w).
Proof.
  intros Hl. rewrite getHistory_run. unfold stored.
  destruct (data w !! uid) as [h|]; [|by rewrite drop_nil].
  cbn [default from_option id]. rewrite to_integer_opp. unfold slice.
  destruct (Z.ltb_spec (- to_integer limit) 0) as [|_]; [lia|].
  do 2 f_equal.
  destruct (Z.min_spec (- to_integer limit) (Z.of_nat (length (messages h))))
    as [[_ ->]|[Hle ->]]; [reflexivity|].
  rewrite Nat2Z.id.
  rewrite (drop_ge (messages h) (length (messages h))) by lia.
  rewrite (drop_ge (messages h) (Z.to_nat (- to_integer limit))) by lia.
  reflexivity.
Qed.

(** C7.  The [getHistory] contract at the limit zero, on a store that holds
    three messages for user 42: the contract asks for the newest
    [min 0 3 = 0] messages, that is none; the call returns all three. *)
Theorem getHistory_limit_zero_returns_all :
  length (stored "42" sample_world) = 3%nat
  /\ newest (Nat.min 0 (length (stored "42" sample_world))) (stored "42" sample_world) = []
  /\ getHistory "42" (Some 0%Q) sample_world = (Ok (stored "42" sample_world), sample_world).
Proof.
  split; [reflexivity|]. split; [reflexivity|]. apply getHistory_zero_limit.
Qed.

(** ** One user's calls and another user's log *)

(** C10.  Per-user isolation.  For two distinct user ids [u] and [v],
    neither [addMessage] for [u] nor [clearHistory] for [u] changes what
    [getHistory] returns for [v], whatever the limit and whether or not the
    write to the file succeeds. *)
Theorem per_user_isolation (w : world) (u v : string) (limit : option Q)
    (now : Z) (io : bool) (sender body : string) :
  u <> v ->
  (getHistory v limit (addMessage now io u sender body w).2).1 = (getHistory v limit w).1
  /\ (getHistory v limit (clearHistory io u w).2).1 = (getHistory v limit w).1.
Proof.
  intros Huv. rewrite addMessage_run, clearHistory_run, !getHistory_run.
  cbn [fst snd]. rewrite !saved_data. cbn [data].
  rewrite lookup_insert_ne by exact Huv.
  rewrite lookup_delete_ne by exact Huv.
  split; reflexivity.
Qed.

Lemma per_user_isolation_witness :
  "42" <> "7"
  /\ (getHistory "7" (Some 5%Q)
        (addMessage 1700000000005 true "42" "user" "redeem 1" sample_world).2).1
     = (getHistory "7" (Some 5%Q) sample_world).1
  /\ (getHistory "7" (Some 5%Q) (clearHistory true "42" sample_world).2).1
     = (getHistory "7" (Some 5%Q) sample_world).1.
Proof.
  split.
  - vm_compute. discriminate.
  - apply (per_user_isolation sample_world "42" "7" (Some 5%Q) 1700000000005 true
             "user" "redeem 1").
    vm_compute. discriminate.
Defined.

(** ** Persistence *)

Lemma as_ChatMessage_json (m : ChatMessage) :
  as_ChatMessage (ChatMessage_json m) = Some m.
Proof. destruct m. reflexivity. Qed.

Lemma as_UserChatHistory_json (h : UserChatHistory) :
  as_UserChatHistory (UserChatHistory_json h) = Some h.
Proof.
  destruct h as [u ms]. unfold UserChatHistory_json, as_UserChatHistory.
  cbn [assoc String.eqb Ascii.eqb Bool.eqb userId messages].
  change (map ChatMessage_json ms) with (ChatMessage_json <$> ms).
  rewrite (mapM_fmap_Some as_ChatMessage ChatMessage_json ms as_ChatMessage_json).
  reflexivity.
Qed.

Lemma as_entry_json (kv : string * UserChatHistory) :
  as_entry (kv.1, UserChatHistory_json kv.2) = Some kv.
Proof.
  unfold as_entry. cbn [fst snd]. rewrite as_UserChatHistory_json.
  destruct kv. reflexivity.
Qed.

(** Setting entries of distinct keys one after the other on top of a map. *)
Lemma fold_insert_lookup (l : list (string * UserChatHistory))
    (acc : gmap string UserChatHistory) (k : string) :
  NoDup l.*1 ->
  fold_left (fun m kv => <[kv.1 := kv.2]> m) l acc !! k
  = match (list_to_map l : gmap string UserChatHistory) !! k with
    | Some h => Some h
    | None => acc !! k
    end.
Proof.
  revert acc. induction l as [|[k' h'] l IH]; intros acc Hnd; [reflexivity|].
  cbn [fold_left fst snd list_to_map foldr].
  rewrite fmap_cons in Hnd. apply NoDup_cons in Hnd as [Hk' Hnd].
  rewrite IH by exact Hnd. cbn [fst snd].
  destruct (decide (k' = k)) as [->|Hne].
  - rewrite !lookup_insert_eq.
    rewrite (not_elem_of_list_to_map_1 l k Hk'). reflexivity.
  - rewrite !lookup_insert_ne by exact Hne. reflexivity.
Qed.

Lemma new_Map_to_list (d : gmap string UserChatHistory) :
  new_Map (map_to_list d) = d.
Proof.
  apply map_eq. intros k. unfold new_Map.
  rewrite fold_insert_lookup by apply NoDup_fst_map_to_list.
  rewrite list_to_map_to_list, lookup_empty.
  destruct (d !! k); reflexivity.
Qed.

(** Loading a file whose document is an object of well-typed logs. *)
Lemma loadData_typed (w : world) (members : list (string * json))
    (typed : list (string * UserChatHistory)) :
  disk w = File (Doc (JObj members)) ->
  mapM as_entry members = Some typed ->
  loadData w = (Ok tt, {| data := new_Map typed; disk := disk w; console := console w |}).
Proof.
  intros Hdisk Htyped. destruct w as [d dk c]. cbn [disk console] in *. subst dk.
  unfold loadData, try_catch, bind, existsSync, readFileSync, gets,
    JSON_parse, Object_entries, ret.
  cbn [disk]. rewrite Htyped. reflexivity.
Qed.

(** C6.  Persistence round trip.  For every store state, once [saveData]
    has written the mapping to the backing file, a store constructed anew
    loads without fault exactly the mapping that was saved, so [getHistory]
    returns for every user and every limit the sequence it returned before:
    same timestamps, senders, contents and order. *)
Theorem persistence_round_trip (w : world) (d0 : gmap string UserChatHistory)
    (c0 : list log_line) (uid : string) (limit : option Q) :
  let reloaded := constructor (restart (saveData true w).2 d0 c0) in
  reloaded.1 = Ok tt
  /\ console reloaded.2 = c0
  /\ data reloaded.2 = data w
  /\ (getHistory uid limit reloaded.2).1 = (getHistory uid limit w).1.
Proof.
  intros reloaded. subst reloaded.
  rewrite saveData_run. unfold restart. cbn [snd saved disk].
  assert (Hrun : constructor
            {| data := d0;
               disk := File (Doc (dataObject_json (map_to_list (data w))));
               console := c0 |}
          = (Ok tt, {| data := data w;
                       disk := File (Doc (dataObject_json (map_to_list (data w))));
                       console := c0 |})).
  { unfold constructor, bind, set_data, modify. cbn beta iota.
    cbn [data disk console].
    rewrite (loadData_typed _
               (map (fun kv : string * UserChatHistory => (kv.1, UserChatHistory_json kv.2))
                    (map_to_list (data w)))
               (map_to_list (data w))).
    - cbn [data disk console]. rewrite new_Map_to_list. reflexivity.
    - reflexivity.
    - apply (mapM_fmap_Some as_entry _ (map_to_list (data w)) as_entry_json). }
  rewrite Hrun. cbn [fst snd data console].
  rewrite !getHistory_run. cbn [fst data].
  repeat split; reflexivity.
Qed.

(** C8.  Persistence faults.  Constructing the store when the backing file
    is absent, cannot be read, or does not parse returns normally with an
    empty store (the latter two after one logged error); and when the write
    to the backing file fails, [addMessage] and [clearHistory] still return
    normally, leave in memory exactly the mapping they leave when the write
    succeeds, leave the file as it was, and log one error. *)
Theorem persistence_fault_tolerance :
  (forall d0 c0,
     constructor {| data := d0; disk := NoFile; console := c0 |}
     = (Ok tt, {| data := ∅; disk := NoFile; console := c0 |}))
  /\ (forall d0 c0,
       constructor {| data := d0; disk := Unreadable; console := c0 |}
       = (Ok tt, {| data := ∅; disk := Unreadable;
                    console := c0 ++ [LogError "Error loading chat history:" IOError] |}))
  /\ (forall d0 c0,
       constructor {| data := d0; disk := File Malformed; console := c0 |}
       = (Ok tt, {| data := ∅; disk := File Malformed;
                    console := c0 ++ [LogError "Error loading chat history:" SyntaxError] |}))
  /\ (forall w now uid sender body,
       let failed := addMessage now false uid sender body w in
       failed.1 = Ok tt
       /\ data failed.2 = data (addMessage now true uid sender body w).2
       /\ stored uid failed.2
          = newest (Z.to_nat MAX_MESSAGES)
              (stored uid w ++
               [{| timestamp := inject_Z now; from := sender; content := body |}])
       /\ disk failed.2 = disk w
       /\ console failed.2 = console w ++ [LogError "Error saving chat history:" IOError])
  /\ (forall w uid,
       let failed := clearHistory false uid w in
       failed.1 = Ok tt
       /\ data failed.2 = data (clearHistory true uid w).2
       /\ data failed.2 !! uid = None
       /\ disk failed.2 = disk w
       /\ console failed.2 = console w ++ [LogError "Error saving chat history:" IOError]).
Proof.
  split; [reflexivity|]. split; [reflexivity|]. split; [reflexivity|]. split.
  - intros w now uid sender body failed. subst failed.
    rewrite (stored_addMessage now false uid sender body uid w).
    rewrite decide_True by reflexivity.
    rewrite !addMessage_run. cbn [fst snd saved data disk console].
    repeat split; reflexivity.
  - intros w uid failed. subst failed.
    rewrite !clearHistory_run. cbn [fst snd saved data disk console].
    rewrite lookup_delete_eq. repeat split; reflexivity.
Qed.

End ChatHistoryProps.

(** * Properties of the dispatcher *)

Module OpenaiProps.
Import Openai.

(** ** The string and number built-ins on small inputs *)

Example replace_first_only : replace "{x}" "1" "a {x} b {x}" = "a 1 b {x}".
Proof. reflexivity. Qed.

Example replace_dollar_patterns : replace "b" "[$&|$$|$`|$'|$1]" "abc" = "a[b|$|a|c|$1]c".
Proof. reflexivity. Qed.

Example replace_absent : replace "{y}" "1" "a {x} b" = "a {x} b".
Proof. reflexivity. Qed.

Example toFixed_samples :
  toFixed 5 (25 # 2) = "12.50000"
  /\ toFixed 5 0 = "0.00000"
  /\ toFixed 5 (1 # 3) = "0.33333"
  /\ toFixed 5 (2 # 3) = "0.66667"
  /\ toFixed 5 (5 # 1000000) = "0.00001"
  /\ toFixed 5 (- 5 # 2) = "-2.50000"
  /\ toFixed 0 (5 # 2) = "3".
Proof. vm_compute. repeat split; reflexivity. Qed.

Example escapeMarkdown_sample :
  escapeMarkdown "Balance: 12.5 USDC (ok!)" = "Balance: 12\.5 USDC \(ok\!\)".
Proof. vm_compute. reflexivity. Qed.

(** ** Traces *)

Lemma handlers_invoked_app (t1 t2 : list event) :
  handlers_invoked (t1 ++ t2) = handlers_invoked t1 ++ handlers_invoked t2.
Proof.
  induction t1 as [|ev t1 IH]; [reflexivity|].
  destruct ev; cbn [app handlers_invoked]; rewrite IH; reflexivity.
Qed.

Lemma replies_app (t1 t2 : list event) :
  replies (t1 ++ t2) = replies t1 ++ replies t2.
Proof.
  induction t1 as [|ev t1 IH]; [reflexivity|].
  destruct ev; cbn [app replies]; rewrite IH; reflexivity.
Qed.

Lemma outcomes_app (t1 t2 : list event) :
  outcomes (t1 ++ t2) = outcomes t1 ++ outcomes t2.
Proof.
  induction t1 as [|ev t1 IH]; [reflexivity|].
  destruct ev; cbn [app outcomes]; rewrite IH; reflexivity.
Qed.

(** ** The steps of a turn *)

(** A turn that gets as far as the reasoning service is the [try] run on
    the answer, after the two lines logged on the way. *)
Lemma processMessage_asks (e : environment) (ctx : MyContext)
    (store : ChatHistoryStore.world) (answer : result ChatCompletion) (t : list event) :
  service_answer e ctx store = Some answer ->
  processMessage e ctx store t
  = try_catch (bind (await answer) (route e)) (on_error e)
      ((t ++ [ConsoleLog "messages"])
         ++ [ConsoleLog "Determining if need to call agent or function:"]).
Proof.
  unfold service_answer, processMessage.
  destruct (message_text ctx) as [message|]; [|discriminate].
  destruct (from_id ctx) as [id|]; [|discriminate].
  destruct (String.eqb message EmptyString || (id =? 0)); [discriminate|].
  unfold bind at 1 2 3 4. unfold await at 1 2 3 4.
  destruct (checkSolBalance e (pretty id)) as [sol| |]; try discriminate.
  destruct (checkUsdcBalance e (pretty id)) as [usdc| |]; try discriminate.
  destruct (checkUsdiBalance e (pretty id)) as [usdi| |]; try discriminate.
  destruct ((ChatHistoryStore.getHistory (pretty id) None store).1)
    as [history| |]; try discriminate.
  intros [= <-]. reflexivity.
Qed.

Lemma route_selection (e : environment) (c : ChatCompletion) (tc : tool_call)
    (t : list event) :
  selection c = Some tc ->
  route e c t
  = bind (JSON_parse (raw_arguments tc)) (dispatch e (function_name tc))
      ((t ++ [ConsoleLog "Tool call:"]) ++ [ConsoleLog "Response:"]).
Proof.
  unfold selection, route. intros Hsel.
  destruct (choices c) as [|first rest]; [discriminate|].
  unfold bind at 1. unfold ret at 1.
  destruct (tool_calls first) as [[|tc' tcs]|]; try discriminate.
  injection Hsel as ->. reflexivity.
Qed.

Lemma dispatch_unhandled (e : environment) (name : string) (args : json) :
  name ∉ handled_names -> dispatch e name args = ret tt.
Proof.
  intros Hname. unfold dispatch.
  repeat match goal with
  | |- context [String.eqb name ?k] =>
      destruct (String.eqb_spec name k) as [->|_];
      [exfalso; apply Hname; compute_done|]
  end.
  reflexivity.
Qed.

(** The run of a turn whose answer selects a tool: the arguments are
    parsed, the [switch] runs, and a fault of either goes to the [catch]. *)
Lemma processMessage_selection (e : environment) (ctx : MyContext)
    (store : ChatHistoryStore.world) (c : ChatCompletion) (tc : tool_call) :
  service_answer e ctx store = Some (Ok c) ->
  selection c = Some tc ->
  processMessage e ctx store []
  = try_catch (bind (JSON_parse (raw_arguments tc)) (dispatch e (function_name tc)))
      (on_error e)
      [ConsoleLog "messages";
       ConsoleLog "Determining if need to call agent or function:";
       ConsoleLog "Tool call:"; ConsoleLog "Response:"].
Proof.
  intros Hans Hsel. rewrite (processMessage_asks e ctx store (Ok c) [] Hans).
  unfold try_catch. unfold bind at 1. unfold await.
  rewrite (route_selection e c tc _ Hsel). reflexivity.
Qed.

Lemma on_error_handlers (e : environment) (error : exn) (t : list event) :
  handlers_invoked (on_error e error t).2 = handlers_invoked t.
Proof.
  cbv beta iota delta [on_error bind console_error reply emit modify await].
  destruct (reply_outcome e apology); cbn [snd];
    rewrite ?handlers_invoked_app; cbn [handlers_invoked];
    rewrite ?app_nil_r; reflexivity.
Qed.

(** C5.  Names outside the [switch].  When the reasoning service selects a
    tool whose name is none of the six names that have a [case] (mint,
    balance, redeem, withdraw, deposit, chat), no handler is invoked, and if
    the arguments parse the turn returns without a fault.  The name
    balance, which is not in the schema sent to the service, has a [case]:
    it is dispatched to the balance handler. *)
Theorem unhandled_name_invokes_nothing (e : environment) (ctx : MyContext)
    (store : ChatHistoryStore.world) (c : ChatCompletion) (tc : tool_call) :
  service_answer e ctx store = Some (Ok c) ->
  selection c = Some tc ->
  let run := processMessage e ctx store [] in
  ((function_name tc ∉ handled_names) ->
     handlers_invoked run.2 = []
     /\ (forall args, raw_arguments tc = Doc args -> run.1 = Ok tt))
  /\ (function_name tc = "balance" ->
      ("balance" ∉ schema_names)
      /\ (forall args, raw_arguments tc = Doc args ->
            handlers_invoked run.2 = [handleBalance])).
Proof.
  intros Hans Hsel run. subst run.
  rewrite (processMessage_selection e ctx store c tc Hans Hsel).
  split.
  - intros Hname. split.
    + unfold try_catch, bind.
      destruct (raw_arguments tc) as [|args]; cbn [JSON_parse].
      * unfold throw. rewrite on_error_handlers. reflexivity.
      * unfold ret at 1. rewrite (dispatch_unhandled e _ args Hname). reflexivity.
    + intros args ->. unfold try_catch, bind. cbn [JSON_parse]. unfold ret at 1.
      rewrite (dispatch_unhandled e _ args Hname). reflexivity.
  - intros Hname. split.
    + compute_done.
    + intros args ->. rewrite Hname.
      unfold try_catch, bind. cbn [JSON_parse]. unfold ret at 1.
      unfold dispatch. cbn [String.eqb Ascii.eqb Bool.eqb].
      cbv beta iota delta [invoke bind emit modify await].
      destruct (handler_outcome e handleBalance) as [[]| |]; cbn [snd app handlers_invoked].
      * reflexivity.
      * rewrite on_error_handlers. reflexivity.
      * reflexivity.
Qed.

Lemma unhandled_name_invokes_nothing_witness :
  let answer := selecting "transfer" (Some (Doc (JObj [("amount", JNum 5)]))) in
  let tc := {| function_name := "transfer";
               function_arguments := Some (Doc (JObj [("amount", JNum 5)])) |} in
  let run := processMessage (sample_env (Ok answer)) sample_ctx
               ChatHistoryStore.sample_world [] in
  service_answer (sample_env (Ok answer)) sample_ctx ChatHistoryStore.sample_world
  = Some (Ok answer)
  /\ selection answer = Some tc
  /\ ("transfer" ∉ handled_names)
  /\ handlers_invoked run.2 = []
  /\ run.1 = Ok tt.
Proof.
  intros answer tc run.
  split; [reflexivity|]. split; [reflexivity|].
  assert (Hname : "transfer" ∉ handled_names) by compute_done.
  split; [exact Hname|].
  destruct (unhandled_name_invokes_nothing (sample_env (Ok answer)) sample_ctx
              ChatHistoryStore.sample_world answer tc eq_refl eq_refl) as [Hunhandled _].
  destruct (Hunhandled Hname) as [Hnone Hreturns].
  split; [exact Hnone|]. exact (Hreturns (JObj [("amount", JNum 5)]) eq_refl).
Defined.

(** The selection of balance, a name outside the closed set of the schema,
    reaches the balance handler, and no fallback reply is sent. *)
Lemma balance_selection_is_dispatched :
  let run :=
    processMessage (sample_env (Ok (selecting "balance" None)))
      sample_ctx ChatHistoryStore.sample_world [] in
  ~ (("balance" ∉ ["mint"; "redeem"; "withdraw"; "deposit"; "chat"]) ->
     handlers_invoked run.2 = [] /\ replies run.2 = [fallback]).
Proof.
  intros run Hclaim.
  assert (Hout : "balance" ∉ ["mint"; "redeem"; "withdraw"; "deposit"; "chat"])
    by compute_done.
  destruct (Hclaim Hout) as [Hnone _].
  vm_compute in Hnone. discriminate Hnone.
Qed.

(** ** Turns on sample answers *)

Example mint_is_dispatched_with_its_amount :
  outcomes
    (processMessage
       (sample_env (Ok (selecting "mint" (Some (Doc (JObj [("amount", JNum 50)]))))))
       sample_ctx ChatHistoryStore.sample_world []).2
  = [Invoked (handleMintAmount (Some (JNum 50)))].
Proof. vm_compute. reflexivity. Qed.

Example chat_is_escaped :
  outcomes
    (processMessage
       (sample_env (Ok (selecting "chat" (Some (Doc (JObj [("message", JStr "How much?")]))))))
       sample_ctx ChatHistoryStore.sample_world []).2
  = [Replied "How much?" (Some "MarkdownV2")].
Proof. vm_compute. reflexivity. Qed.

Example text_without_selection_is_replied :
  outcomes
    (processMessage
       (sample_env (Ok {| choices := [ {| tool_calls := None; content := Some "Hello." |} ] |}))
       sample_ctx ChatHistoryStore.sample_world []).2
  = [Replied "Hello." None].
Proof. vm_compute. reflexivity. Qed.

Example selection_wins_over_text :
  outcomes
    (processMessage
       (sample_env
          (Ok {| choices :=
                   [ {| tool_calls :=
                          Some [ {| function_name := "deposit"; function_arguments := None |} ];
                        content := Some "Here is your address." |} ] |}))
       sample_ctx ChatHistoryStore.sample_world []).2
  = [Invoked handleDeposit].
Proof. vm_compute. reflexivity. Qed.

Example neither_selection_nor_text :
  outcomes
    (processMessage
       (sample_env (Ok {| choices := [ {| tool_calls := None; content := None |} ] |}))
       sample_ctx ChatHistoryStore.sample_world []).2
  = [Replied fallback None].
Proof. vm_compute. reflexivity. Qed.

Example malformed_arguments_get_the_apology :
  outcomes
    (processMessage (sample_env (Ok (selecting "mint" (Some Malformed))))
       sample_ctx ChatHistoryStore.sample_world []).2
  = [Replied apology None].
Proof. vm_compute. reflexivity. Qed.

Example service_fault_gets_the_apology :
  outcomes
    (processMessage (sample_env (Throw ServiceError))
       sample_ctx ChatHistoryStore.sample_world []).2
  = [Replied apology None].
Proof. vm_compute. reflexivity. Qed.

Example empty_text_is_ignored :
  processMessage (sample_env (Throw ServiceError))
    {| message_text := Some EmptyString; from_id := Some 42 |}
    ChatHistoryStore.sample_world []
  = (Ok tt, []).
Proof. reflexivity. Qed.

(** ** Withdrawals *)

Lemma prop_member (k : string) (args : json) (t : list event) :
  args <> JNull -> prop k args t = (Ok (member k args), t).
Proof. intros Hargs. destruct args; try reflexivity. contradiction. Qed.

(** C3.  A withdraw selection without an address.  The dispatcher does not
    check arguments against the schema: when the selected tool is withdraw
    and its arguments parse to a value other than null that has no address
    member, the withdraw handler is invoked, exactly once, with the address
    undefined and the amount as parsed; when the handler returns, the turn
    returns and that invocation is its only outcome. *)
Theorem withdraw_without_address_is_dispatched (e : environment) (ctx : MyContext)
    (store : ChatHistoryStore.world) (c : ChatCompletion) (tc : tool_call) (args : json) :
  service_answer e ctx store = Some (Ok c) ->
  selection c = Some tc ->
  function_name tc = "withdraw" ->
  raw_arguments tc = Doc args ->
  args <> JNull ->
  member "address" args = None ->
  let run := processMessage e ctx store [] in
  handlers_invoked run.2 = [handleWithdrawalAddress None (member "amount" args)]
  /\ (handler_outcome e (handleWithdrawalAddress None (member "amount" args)) = Ok tt ->
      run.1 = Ok tt
      /\ outcomes run.2 = [Invoked (handleWithdrawalAddress None (member "amount" args))]).
Proof.
  intros Hans Hsel Hname Hraw Hnull Haddr run. subst run.
  rewrite (processMessage_selection e ctx store c tc Hans Hsel).
  rewrite Hname, Hraw.
  cbv beta iota delta [try_catch bind JSON_parse ret dispatch invoke emit modify await].
  cbn [String.eqb Ascii.eqb Bool.eqb].
  rewrite !prop_member by exact Hnull. rewrite Haddr.
  destruct (handler_outcome e (handleWithdrawalAddress None (member "amount" args)))
    as [[]|err|]; cbn [fst snd app handlers_invoked outcomes].
  - split; [reflexivity|]. intros _. split; reflexivity.
  - rewrite on_error_handlers. cbn [handlers_invoked]. split; [reflexivity|discriminate].
  - split; [reflexivity|discriminate].
Qed.

Lemma withdraw_without_address_is_dispatched_witness :
  let args := JObj [("amount", JNum 5)] in
  let answer := selecting "withdraw" (Some (Doc args)) in
  let tc := {| function_name := "withdraw"; function_arguments := Some (Doc args) |} in
  let e := sample_env (Ok answer) in
  let run := processMessage e sample_ctx ChatHistoryStore.sample_world [] in
  service_answer e sample_ctx ChatHistoryStore.sample_world = Some (Ok answer)
  /\ selection answer = Some tc
  /\ function_name tc = "withdraw"
  /\ raw_arguments tc = Doc args
  /\ args <> JNull
  /\ member "address" args = None
  /\ handlers_invoked run.2 = [handleWithdrawalAddress None (Some (JNum 5))]
  /\ run.1 = Ok tt
  /\ outcomes run.2 = [Invoked (handleWithdrawalAddress None (Some (JNum 5)))].
Proof.
  intros args answer tc e run.
  assert (Hnull : args <> JNull) by discriminate.
  destruct (withdraw_without_address_is_dispatched e sample_ctx
              ChatHistoryStore.sample_world answer tc args
              eq_refl eq_refl eq_refl eq_refl Hnull eq_refl) as [Hinvoked Hreturns].
  destruct (Hreturns eq_refl) as [Hok Honly].
  repeat (split; [reflexivity|]).
  split; [exact Hnull|]. split; [reflexivity|].
  split; [exact Hinvoked|]. split; [exact Hok|exact Honly].
Defined.

(** A withdraw selection whose arguments hold an amount and no address: the
    withdraw handler is reached and no fallback reply is sent. *)
Lemma withdraw_without_address_reaches_handler :
  let run :=
    processMessage
      (sample_env (Ok (selecting "withdraw" (Some (Doc (JObj [("amount", JNum 5)]))))))
      sample_ctx ChatHistoryStore.sample_world [] in
  ~ (member "address" (JObj [("amount", JNum 5)]) = None ->
     (forall address amount, handleWithdrawalAddress address amount ∉ handlers_invoked run.2)
     /\ replies run.2 = [fallback]).
Proof.
  intros run Hclaim.
  destruct (Hclaim eq_refl) as [Hnever _].
  apply (Hnever None (Some (JNum 5))).
  vm_compute. apply list_elem_of_here.
Qed.

(** ** One outcome per turn *)

(** C2.  A selection whose name has no [case], here transfer with an amount:
    the turn returns normally having invoked no handler and sent no reply,
    so it has no observable outcome. *)
Theorem unhandled_selection_has_no_outcome :
  let answer := Ok (selecting "transfer" (Some (Doc (JObj [("amount", JNum 5)])))) in
  let run := processMessage (sample_env answer) sample_ctx ChatHistoryStore.sample_world [] in
  service_answer (sample_env answer) sample_ctx ChatHistoryStore.sample_world = Some answer
  /\ run.1 = Ok tt
  /\ outcomes run.2 = []
  /\ length (outcomes run.2) <> 1%nat.
Proof.
  cbv zeta. split; [reflexivity|]. split; [reflexivity|]. split; [reflexivity|].
  vm_compute. discriminate.
Qed.

Lemma on_error_run (e : environment) (error : exn) (t : list event) :
  reply_outcome e apology = Ok tt ->
  on_error e error t
  = (Ok tt, (t ++ [ConsoleError "Error:" error]) ++ [Replied apology None]).
Proof.
  intros Hreply.
  cbv beta iota delta [on_error bind console_error reply emit modify await].
  rewrite Hreply. reflexivity.
Qed.

Lemma not_handled (name : string) :
  name <> "mint" -> name <> "balance" -> name <> "redeem" ->
  name <> "withdraw" -> name <> "deposit" -> name <> "chat" ->
  name ∉ handled_names.
Proof.
  intros H1 H2 H3 H4 H5 H6 Hin. unfold handled_names in Hin.
  repeat (apply elem_of_cons in Hin as [Hin|Hin]; [congruence|]).
  apply elem_of_nil in Hin. exact Hin.
Qed.

(** Outcomes of a turn whose collaborators all return.  Whatever the
    reasoning service answers (a fault, no choice, text, no text, a
    selection with arguments that parse or not), the turn has exactly one
    outcome, except when the answer selects, with arguments that parse, a
    name without a [case]: then it has none. *)
Lemma outcome_count (e : environment) (ctx : MyContext)
    (store : ChatHistoryStore.world) (answer : result ChatCompletion) :
  (forall h, handler_outcome e h = Ok tt) ->
  (forall reply_text, reply_outcome e reply_text = Ok tt) ->
  service_answer e ctx store = Some answer ->
  answer <> IllTyped ->
  length (outcomes (processMessage e ctx store []).2)
  = if unhandled answer then 0%nat else 1%nat.
Proof.
  intros Hh Hr Hans Hill.
  rewrite (processMessage_asks e ctx store answer [] Hans).
  destruct answer as [c|err|]; [| |contradiction].
  2: { cbv beta iota delta [try_catch bind await].
       rewrite on_error_run by apply Hr. reflexivity. }
  unfold unhandled, selection. unfold try_catch, bind at 1, await.
  destruct (choices c) as [|first rest] eqn:Hchoices.
  { unfold route. rewrite Hchoices.
    cbv beta iota delta [bind throw]. rewrite on_error_run by apply Hr. reflexivity. }
  destruct (tool_calls first) as [[|tc tcs]|] eqn:Htools.
  1, 3: unfold route; rewrite Hchoices;
        cbv beta iota delta [bind ret console_log emit modify]; rewrite Htools;
        destruct (content first) as [r|]; [destruct (String.eqb r EmptyString)|];
        cbv beta iota delta [reply bind await emit modify]; rewrite Hr; reflexivity.
  rewrite (route_selection e c tc).
  2: { unfold selection. rewrite Hchoices, Htools. reflexivity. }
  destruct (raw_arguments tc) as [|args].
  { cbv beta iota delta [bind JSON_parse throw].
    rewrite on_error_run by apply Hr. reflexivity. }
  cbv beta iota delta [bind JSON_parse ret].
  destruct (String.eqb_spec (function_name tc) "mint") as [Hn|N1];
    [|destruct (String.eqb_spec (function_name tc) "balance") as [Hn|N2];
      [|destruct (String.eqb_spec (function_name tc) "redeem") as [Hn|N3];
        [|destruct (String.eqb_spec (function_name tc) "withdraw") as [Hn|N4];
          [|destruct (String.eqb_spec (function_name tc) "deposit") as [Hn|N5];
            [|destruct (String.eqb_spec (function_name tc) "chat") as [Hn|N6]]]]]].
  7: { rewrite (dispatch_unhandled e _ args (not_handled _ N1 N2 N3 N4 N5 N6)).
       rewrite bool_decide_eq_false_2 by exact (not_handled _ N1 N2 N3 N4 N5 N6).
       reflexivity. }
  all: rewrite Hn; unfold dispatch; cbn [String.eqb Ascii.eqb Bool.eqb];
    rewrite bool_decide_eq_true_2 by compute_done; cbn [negb].
  1, 3, 4: destruct args;
    cbv beta iota delta [bind prop throw ret invoke emit modify await];
    rewrite ?Hh, ?on_error_run by apply Hr; reflexivity.
  1, 2: cbv beta iota delta [bind invoke emit modify await]; rewrite Hh; reflexivity.
  destruct args as [| | | | |members];
    cbv beta iota delta [bind prop throw ret chat member];
    rewrite ?on_error_run by apply Hr; try reflexivity.
  destruct (assoc "message" members) as [[]|];
    cbv beta iota delta [throw reply bind await emit modify];
    rewrite ?Hr, ?on_error_run by apply Hr; reflexivity.
Qed.

(** ** Faults *)

(** A fault raised inside the [try] (by the reasoning service, by the
    parsing of the arguments, by a handler) is logged and answered with the
    apology, provided the transport delivers it. *)
Lemma fault_inside_try_gets_apology (e : environment) (ctx : MyContext)
    (store : ChatHistoryStore.world) (answer : result ChatCompletion)
    (error : exn) (t : list event) :
  service_answer e ctx store = Some answer ->
  reply_outcome e apology = Ok tt ->
  bind (await answer) (route e)
    [ConsoleLog "messages"; ConsoleLog "Determining if need to call agent or function:"]
  = (Throw error, t) ->
  processMessage e ctx store []
  = (Ok tt, (t ++ [ConsoleError "Error:" error]) ++ [Replied apology None]).
Proof.
  intros Hans Hreply Hbody.
  rewrite (processMessage_asks e ctx store answer [] Hans).
  unfold try_catch. cbn [app]. rewrite Hbody. apply on_error_run, Hreply.
Qed.

(** C4.  A fault of a balance lookup.  The lookups run before the [try]:
    when the first one throws, the turn ends with that fault raised to the
    caller and nothing sent to the user, although the text and the user id
    are present and the transport would have delivered a reply. *)
Theorem balance_fault_leaves_no_reply :
  let e := balance_fault_env (Ok (selecting "deposit" None)) in
  message_text sample_ctx = Some "withdraw 5 USDC"
  /\ from_id sample_ctx = Some 42
  /\ reply_outcome e apology = Ok tt
  /\ processMessage e sample_ctx ChatHistoryStore.sample_world [] = (Throw ServiceError, [])
  /\ replies (processMessage e sample_ctx ChatHistoryStore.sample_world []).2 = [].
Proof. cbv zeta. repeat split; reflexivity. Qed.

(** ** The rendered prompt *)

Lemma append_cons (x : ascii) (a b : string) : String x a +:+ b = String x (a +:+ b).
Proof. reflexivity. Qed.

Lemma append_empty (b : string) : EmptyString +:+ b = b.
Proof. reflexivity. Qed.

Lemma append_assoc (a b c : string) : (a +:+ b) +:+ c = a +:+ b +:+ c.
Proof.
  induction a as [|x a IH]; [reflexivity|].
  rewrite !append_cons. f_equal. exact IH.
Qed.

Lemma length_append (a b : string) :
  String.length (a +:+ b) = (String.length a + String.length b)%nat.
Proof.
  induction a as [|x a IH]; [reflexivity|].
  rewrite append_cons. cbn [String.length]. rewrite IH. reflexivity.
Qed.

Lemma strip_prefix_append (p s : string) : strip_prefix p (p +:+ s) = Some s.
Proof.
  induction p as [|x p IH]; [reflexivity|].
  rewrite append_cons. cbn [strip_prefix]. rewrite Ascii.eqb_refl. exact IH.
Qed.

Lemma strip_prefix_sound (p s after : string) :
  strip_prefix p s = Some after -> s = p +:+ after.
Proof.
  revert s. induction p as [|x p IH]; intros s; cbn [strip_prefix].
  - intros [= ->]. reflexivity.
  - destruct s as [|y s]; [discriminate|].
    destruct (Ascii.eqb_spec x y) as [->|]; [|discriminate].
    intros H. rewrite (IH s H). reflexivity.
Qed.

(** A text that starts with [p] and also with something at least as long
    continues, after [p], up to the same ending. *)
Lemma append_same_ending (p after u y : string) :
  p +:+ after = u +:+ y ->
  (String.length p <= String.length u)%nat ->
  exists middle, after = middle +:+ y.
Proof.
  revert u. induction p as [|x p IH]; intros u.
  - rewrite append_empty. intros -> _. exists u. reflexivity.
  - destruct u as [|z u]; cbn [String.length]; [lia|].
    rewrite !append_cons. intros [= _ Heq] Hlen. apply (IH u Heq). lia.
Qed.

Lemma find_first_here (p s after : string) :
  strip_prefix p s = Some after -> find_first p s = Some (EmptyString, after).
Proof. intros H. destruct s; cbn [find_first]; rewrite H; reflexivity. Qed.

Lemma find_first_later (p : string) (c : ascii) (s : string) :
  strip_prefix p (String c s) = None ->
  find_first p (String c s)
  = match find_first p s with
    | Some (before, after) => Some (String c before, after)
    | None => None
    end.
Proof. intros H. cbn [find_first]. rewrite H. reflexivity. Qed.

(** When the pattern occurs, the search finds an occurrence that ends no
    later, so what follows the found one ends with what followed. *)
Lemma find_first_append (p x y : string) :
  exists before middle, find_first p (x +:+ p +:+ y) = Some (before, middle +:+ y).
Proof.
  induction x as [|c x IH].
  - rewrite append_empty. exists EmptyString, EmptyString.
    rewrite append_empty. apply find_first_here, strip_prefix_append.
  - destruct (strip_prefix p (String c x +:+ p +:+ y)) as [after|] eqn:Hstrip.
    + pose proof (strip_prefix_sound _ _ _ Hstrip) as Heq.
      rewrite <- append_assoc in Heq. symmetry in Heq.
      destruct (append_same_ending p after (String c x +:+ p) y Heq) as [middle Hmid].
      { rewrite length_append. lia. }
      exists EmptyString, middle. subst after.
      apply find_first_here, Hstrip.
    + destruct IH as (before & middle & IH).
      exists (String c before), middle.
      rewrite append_cons in *. rewrite (find_first_later p c _ Hstrip), IH. reflexivity.
Qed.

Lemma find_first_sound (p s before after : string) :
  find_first p s = Some (before, after) -> s = before +:+ p +:+ after.
Proof.
  revert before. induction s as [|c s IH]; intros before.
  - cbn [find_first].
    destruct (strip_prefix p EmptyString) as [a|] eqn:Hstrip; [|discriminate].
    intros [= <- <-]. rewrite append_empty. apply (strip_prefix_sound _ _ _ Hstrip).
  - destruct (strip_prefix p (String c s)) as [a|] eqn:Hstrip.
    + rewrite (find_first_here _ _ _ Hstrip). intros [= <- <-].
      rewrite append_empty. apply (strip_prefix_sound _ _ _ Hstrip).
    + rewrite (find_first_later _ _ _ Hstrip).
      destruct (find_first p s) as [[b a]|]; [|discriminate].
      intros [= <- <-]. rewrite append_cons, <- (IH b eq_refl). reflexivity.
Qed.

(** [replace] leaves alone what follows an occurrence of the pattern. *)
Lemma replace_keeps_ending (p r x y : string) :
  exists w, replace p r (x +:+ p +:+ y) = w +:+ y.
Proof.
  unfold replace.
  destruct (find_first_append p x y) as (before & middle & ->).
  exists (before +:+ get_substitution p before (middle +:+ y) r +:+ middle).
  rewrite !append_assoc. reflexivity.
Qed.

Lemma replace_keeps_after_first (p r w s : string) :
  occurs p s = true ->
  exists w', replace p r (w +:+ s) = w' +:+ after_first p s.
Proof.
  unfold occurs, after_first.
  destruct (find_first p s) as [[before after]|] eqn:Hfind; [|discriminate].
  intros _. rewrite (find_first_sound p s before after Hfind).
  rewrite <- append_assoc. apply replace_keeps_ending.
Qed.

Lemma occurs_after (p w s : string) :
  occurs p s = true -> occurs p (w +:+ s) = true.
Proof.
  unfold occurs.
  destruct (find_first p s) as [[before after]|] eqn:Hfind; [|discriminate].
  intros _. rewrite (find_first_sound p s before after Hfind), <- append_assoc.
  destruct (find_first_append p (w +:+ before) after) as (b & m & ->). reflexivity.
Qed.

(** The rendered prompt ends with what follows, in the template, the first
    occurrence of each placeholder. *)
Lemma systemPromptWithData_ending (wallet : option Wallet) (usdc usdi sol : Q) :
  exists w, systemPromptWithData wallet usdc usdi sol = w +:+ after_first_placeholders.
Proof.
  unfold systemPromptWithData, after_first_placeholders.
  destruct (replace_keeps_after_first "{walletAddress}" (walletAddress wallet)
              EmptyString SYSTEM_PROMPT) as [w1 H1]; [vm_compute; reflexivity|].
  rewrite append_empty in H1. rewrite H1.
  destruct (replace_keeps_after_first "{usdcBalance}" (toFixed 5 usdc) w1
              (after_first "{walletAddress}" SYSTEM_PROMPT)) as [w2 H2];
    [vm_compute; reflexivity|].
  rewrite H2.
  destruct (replace_keeps_after_first "{usdiBalance}" (toFixed 5 usdi) w2
              (after_first "{usdcBalance}" (after_first "{walletAddress}" SYSTEM_PROMPT)))
    as [w3 H3]; [vm_compute; reflexivity|].
  rewrite H3.
  destruct (replace_keeps_after_first "{solBalance}" (toFixed 5 sol) w3
              (after_first "{usdiBalance}"
                 (after_first "{usdcBalance}" (after_first "{walletAddress}" SYSTEM_PROMPT))))
    as [w4 H4]; [vm_compute; reflexivity|].
  rewrite H4. exists w4. reflexivity.
Qed.

(** The prompt of the sample turn: the first occurrence of each placeholder
    is replaced, the balances with five fractional digits. *)
Example systemPromptWithData_sample :
  let rendered :=
    systemPromptWithData (Some {| publicKey := "9xQeWvG816bUx9EP" |}) (25 # 2) 0 (1 # 3) in
  occurs ("Wallet Address: 9xQeWvG816bUx9EP" +:+ nl
          +:+ "Current USDC Balance: 12.50000 USDC" +:+ nl
          +:+ "Current USDi Balance: 0.00000 USDi" +:+ nl
          +:+ "Current SOL Balance: 0.33333 SOL" +:+ nl) rendered = true
  /\ occurs "{walletAddress}" rendered = false
  /\ occurs "Not created yet" (systemPromptWithData None (25 # 2) 0 (1 # 3)) = true.
Proof. vm_compute. repeat split; reflexivity. Qed.

(** C9.  Placeholders in the rendered prompt.  The template names each of
    the three balance placeholders twice and [replace] with a string pattern
    replaces the first occurrence only: whatever the wallet and the
    balances, each balance placeholder still occurs in the rendered block,
    which ends with the last three lines of the template unchanged. *)
Theorem balance_placeholders_remain (wallet : option Wallet) (usdc usdi sol : Q) :
  let rendered := systemPromptWithData wallet usdc usdi sol in
  occurs "{usdcBalance}" rendered = true
  /\ occurs "{usdiBalance}" rendered = true
  /\ occurs "{solBalance}" rendered = true
  /\ exists w, rendered = w +:+ template_footer.
Proof.
  intros rendered. subst rendered.
  destruct (systemPromptWithData_ending wallet usdc usdi sol) as [w ->].
  split; [apply occurs_after; vm_compute; reflexivity|].
  split; [apply occurs_after; vm_compute; reflexivity|].
  split; [apply occurs_after; vm_compute; reflexivity|].
  exists (w +:+ String.substring 0
                  (String.length after_first_placeholders - String.length template_footer)
                  after_first_placeholders).
  rewrite append_assoc. apply (f_equal (String.append w)).
  vm_compute. reflexivity.
Qed.

End OpenaiProps.

(** * More properties of the chat history store *)

Module ChatHistoryMore.
Import ChatHistoryStore ChatHistoryProps.

(** ** Helpers *)

Lemma constructor_reloads (d d0 : gmap string UserChatHistory) (c0 : list log_line) :
  constructor {| data := d0; disk := File (Doc (dataObject_json (map_to_list d)));
                 console := c0 |}
  = (Ok tt, {| data := d; disk := File (Doc (dataObject_json (map_to_list d)));
               console := c0 |}).
Proof.
  unfold constructor, bind, set_data, modify. cbn beta iota. cbn [data disk console].
  rewrite (loadData_typed _
             (map (fun kv : string * UserChatHistory => (kv.1, UserChatHistory_json kv.2))
                  (map_to_list d))
             (map_to_list d)).
  - cbn [data disk console]. rewrite new_Map_to_list. reflexivity.
  - reflexivity.
  - apply (mapM_fmap_Some as_entry _ (map_to_list d) as_entry_json).
Qed.

Lemma constructor_without_file (d0 : gmap string UserChatHistory) (c0 : list log_line) :
  constructor {| data := d0; disk := NoFile; console := c0 |}
  = (Ok tt, {| data := ∅; disk := NoFile; console := c0 |}).
Proof. reflexivity. Qed.

Lemma newest_nonempty {A} (k : nat) (l : list A) (x : A) :
  (0 < k)%nat -> newest k (l ++ [x]) <> [].
Proof.
  intros Hk Hnil. apply (f_equal length) in Hnil.
  rewrite newest_length, length_app in Hnil. simpl in Hnil. lia.
Qed.

Lemma tidy_empty : tidy ∅.
Proof. intros uid h Hl. rewrite lookup_empty in Hl. discriminate. Qed.

Lemma tidy_insert_pushed (now : Z) (uid sender body : string) (w : world) :
  tidy (data w) -> tidy (<[uid := pushed_log now uid sender body w]> (data w)).
Proof.
  intros Ht k h Hl. destruct (decide (uid = k)) as [<-|Hne].
  - rewrite lookup_insert_eq in Hl. injection Hl as <-.
    unfold pushed_log. cbn [userId messages]. split; [|split].
    + destruct (data w !! uid) as [h0|] eqn:H0; [|reflexivity]. apply (Ht uid h0 H0).
    + apply newest_nonempty. unfold MAX_MESSAGES. lia.
    + rewrite newest_length. unfold MAX_MESSAGES. lia.
  - rewrite lookup_insert_ne in Hl by exact Hne. apply (Ht k h Hl).
Qed.

Lemma tidy_delete (uid : string) (d : gmap string UserChatHistory) :
  tidy d -> tidy (delete uid d).
Proof.
  intros Ht k h Hl. apply lookup_delete_Some in Hl as [_ Hl]. apply (Ht k h Hl).
Qed.

Lemma saved_file_ok (io : bool) (w : world) :
  tidy (data w) -> file_ok (disk w) -> file_ok (disk (saved io w)).
Proof.
  intros Ht Hf. destruct io; cbn [saved disk]; [|exact Hf].
  right. exists (data w). split; [reflexivity|exact Ht].
Qed.

Lemma run_op_keeps (o : op) (w : world) :
  tidy (data w) -> file_ok (disk w) ->
  (run_op o w).1 = Ok tt /\ tidy (data (run_op o w).2) /\ file_ok (disk (run_op o w).2).
Proof.
  intros Ht Hf. destruct o as [c|io uid|]; cbn [run_op].
  - rewrite addMessage_run. cbn [fst snd]. split; [reflexivity|].
    rewrite saved_data. cbn [data]. split; [apply tidy_insert_pushed, Ht|].
    apply saved_file_ok; cbn [data disk]; [apply tidy_insert_pushed, Ht|exact Hf].
  - rewrite clearHistory_run. cbn [fst snd]. split; [reflexivity|].
    rewrite saved_data. cbn [data]. split; [apply tidy_delete, Ht|].
    apply saved_file_ok; cbn [data disk]; [apply tidy_delete, Ht|exact Hf].
  - unfold restart. destruct Hf as [Hno|(d & Hd & Htd)].
    + rewrite Hno, constructor_without_file. cbn [fst snd data disk].
      split; [reflexivity|]. split; [apply tidy_empty|left; reflexivity].
    + unfold holds in Hd. rewrite Hd, constructor_reloads. cbn [fst snd data disk].
      split; [reflexivity|]. split; [exact Htd|].
      right. exists d. split; [reflexivity|exact Htd].
Qed.

Lemma run_ops_keeps (ops : list op) (w : world) :
  tidy (data w) -> file_ok (disk w) ->
  (run_ops ops w).1 = Ok tt /\ tidy (data (run_ops ops w).2).
Proof.
  revert w. induction ops as [|o rest IH]; intros w Ht Hf.
  - split; [reflexivity|exact Ht].
  - cbn [run_ops]. unfold bind.
    destruct (run_op_keeps o w Ht Hf) as (Hok & Ht' & Hf').
    destruct (run_op o w) as [r w1]. cbn [fst snd] in *. subst r.
    apply (IH w1 Ht' Hf').
Qed.



(** ** Invariants over the life of a store *)

(** X1.  From a missing file, whatever sequence of [addMessage] and
    [clearHistory] calls (with writes that succeed or fail) and of process
    restarts follows, no call raises, no load meets a document of the wrong
    shape, and every log in memory is filed under its own user id, is not
    empty and holds at most [MAX_MESSAGES] messages. *)
Theorem store_stays_tidy (ops : list op) :
  (run_ops ops empty_world).1 = Ok tt
  /\ tidy (data (run_ops ops empty_world).2).
Proof.
  apply run_ops_keeps.
  - apply tidy_empty.
  - left. reflexivity.
Qed.

(** The sample life ends with one message for user 42, the one written
    after the clear; the message of user 7 whose write failed is gone. *)
Example sample_ops_end :
  stored "42" (run_ops sample_ops empty_world).2
  = [{| timestamp := inject_Z 1700000000200; from := "user"; content := "back again" |}]
  /\ stored "7" (run_ops sample_ops empty_world).2 = [].
Proof. vm_compute. split; reflexivity. Qed.

(** ** clearHistory *)

(** X2.  After [clearHistory] the user has no history, whatever the limit
    asked for; clearing again changes nothing in memory, and with writes
    that succeed clearing twice leaves exactly the world that clearing once
    leaves. *)
Theorem clearHistory_idempotent (w : world) (io io' : bool) (uid : string)
    (limit : option Q) :
  (getHistory uid limit (clearHistory io uid w).2).1 = Ok []
  /\ data (clearHistory io' uid (clearHistory io uid w).2).2 = data (clearHistory io uid w).2
  /\ (clearHistory true uid (clearHistory true uid w).2).2 = (clearHistory true uid w).2.
Proof.
  rewrite !clearHistory_run, getHistory_run. cbn [fst snd].
  rewrite !saved_data. cbn [data saved disk console].
  rewrite lookup_delete_eq, !delete_delete_eq. repeat split; reflexivity.
Qed.

(** X3.  Clearing a user who has no log is a no-op in memory, not an error;
    the file is rewritten all the same, with the whole mapping. *)
Theorem clearHistory_unknown_user (w : world) (io : bool) (uid : string) :
  data w !! uid = None ->
  (clearHistory io uid w).1 = Ok tt
  /\ data (clearHistory io uid w).2 = data w
  /\ (clearHistory true uid w).2 = saved true w.
Proof.
  intros Hnone. rewrite !clearHistory_run. cbn [fst snd].
  rewrite saved_data. cbn [data saved disk console].
  rewrite (delete_id _ _ Hnone). repeat split; reflexivity.
Qed.

Lemma clearHistory_unknown_user_witness :
  data sample_world !! "1000" = None
  /\ (clearHistory true "1000" sample_world).1 = Ok tt
  /\ data (clearHistory true "1000" sample_world).2 = data sample_world
  /\ (clearHistory true "1000" sample_world).2 = saved true sample_world.
Proof.
  split; [reflexivity|].
  apply (clearHistory_unknown_user sample_world true "1000"). reflexivity.
Defined.

(** X11.  [clearHistory] after [addMessage] for the same user leaves the
    mapping that [clearHistory] alone leaves; [addMessage] after
    [clearHistory] starts a new log, filed under the user id, that holds
    the new message only. *)
Theorem clear_and_add_compose (w : world) (now : Z) (io1 io2 : bool)
    (uid sender body : string) :
  data (clearHistory io2 uid (addMessage now io1 uid sender body w).2).2
  = data (clearHistory io2 uid w).2
  /\ data (addMessage now io1 uid sender body (clearHistory io2 uid w).2).2 !! uid
     = Some {| userId := uid;
               messages := [{| timestamp := inject_Z now; from := sender;
                               content := body |}] |}.
Proof.
  repeat (rewrite ?clearHistory_run, ?addMessage_run; cbn [fst snd];
          rewrite ?saved_data; cbn [data]).
  split.
  - apply delete_insert_eq.
  - rewrite lookup_insert_eq. unfold pushed_log, stored.
    rewrite saved_data. cbn [data]. rewrite lookup_delete_eq. reflexivity.
Qed.

(** ** addMessage *)

(** X4.  One [addMessage] keeps the new message and evicts from the front
    of the log exactly the messages beyond the nine newest: none while the
    log holds fewer than ten, the oldest one when it holds ten, and all the
    surplus of a longer log that came from the file. *)
Theorem addMessage_evicts_oldest (w : world) (now : Z) (io : bool)
    (uid sender body : string) :
  exists evicted kept,
    stored uid w = evicted ++ kept
    /\ stored uid (addMessage now io uid sender body w).2
       = kept ++ [{| timestamp := inject_Z now; from := sender; content := body |}]
    /\ length evicted = (length (stored uid w) - 9)%nat.
Proof.
  exists (take (length (stored uid w) - 9) (stored uid w)),
         (drop (length (stored uid w) - 9) (stored uid w)).
  split; [symmetry; apply take_drop|]. split.
  - rewrite stored_addMessage, decide_True by reflexivity.
    unfold newest. rewrite length_app. cbn [length].
    replace (length (stored uid w) + 1 - Z.to_nat MAX_MESSAGES)%nat
      with (length (stored uid w) - 9)%nat by (unfold MAX_MESSAGES; lia).
    apply drop_app_le. lia.
  - rewrite length_take. lia.
Qed.



(** ** What survives a restart *)

(** X5.  After an [addMessage] or a [clearHistory] whose write succeeds the
    file holds the whole mapping that is in memory, and a store constructed
    anew loads exactly that mapping: the added message is the newest of the
    user's log, the cleared user has none. *)
Theorem successful_write_is_durable (w : world) (now : Z) (uid sender body : string)
    (d0 : gmap string UserChatHistory) (c0 : list log_line) :
  let added := (addMessage now true uid sender body w).2 in
  let cleared := (clearHistory true uid w).2 in
  mirrored added
  /\ constructor (restart added d0 c0)
     = (Ok tt, {| data := data added; disk := disk added; console := c0 |})
  /\ last (stored uid (constructor (restart added d0 c0)).2)
     = Some {| timestamp := inject_Z now; from := sender; content := body |}
  /\ mirrored cleared
  /\ constructor (restart cleared d0 c0)
     = (Ok tt, {| data := data cleared; disk := disk cleared; console := c0 |})
  /\ stored uid (constructor (restart cleared d0 c0)).2 = [].
Proof.
  intros added cleared.
  assert (Hadded : mirrored added)
    by (subst added; rewrite addMessage_run; reflexivity).
  assert (Hcleared : mirrored cleared)
    by (subst cleared; rewrite clearHistory_run; reflexivity).
  assert (Hra : constructor (restart added d0 c0)
                = (Ok tt, {| data := data added; disk := disk added; console := c0 |})).
  { unfold restart. rewrite Hadded. apply constructor_reloads. }
  assert (Hrc : constructor (restart cleared d0 c0)
                = (Ok tt, {| data := data cleared; disk := disk cleared; console := c0 |})).
  { unfold restart. rewrite Hcleared. apply constructor_reloads. }
  split; [exact Hadded|]. split; [exact Hra|]. split.
  { rewrite Hra. cbn [snd]. unfold stored at 1. cbn [data].
    change (last (stored uid added)
            = Some {| timestamp := inject_Z now; from := sender; content := body |}).
    subst added. rewrite stored_addMessage, decide_True by reflexivity.
    rewrite last_newest by (unfold MAX_MESSAGES; lia). apply last_snoc. }
  split; [exact Hcleared|]. split; [exact Hrc|].
  rewrite Hrc. cbn [snd]. unfold stored. cbn [data].
  subst cleared. rewrite clearHistory_run. cbn [snd saved data].
  rewrite lookup_delete_eq. reflexivity.
Qed.



(** X9.  Files that parse to something other than an object of logs.  The
    document null makes [Object.entries] throw: the fault is logged and the
    store is empty.  A boolean, a number, the empty string, the empty array
    and the empty object have no entries: the store is empty and nothing is
    logged. *)
Theorem constructor_on_scalar_documents (d0 : gmap string UserChatHistory)
    (c0 : list log_line) :
  let start j := {| data := d0; disk := File (Doc j); console := c0 |} in
  let empty j := {| data := ∅; disk := File (Doc j); console := c0 |} in
  constructor (start JNull)
  = (Ok tt, {| data := ∅; disk := File (Doc JNull);
               console := c0 ++ [LogError "Error loading chat history:" TypeError] |})
  /\ (forall b, constructor (start (JBool b)) = (Ok tt, empty (JBool b)))
  /\ (forall q, constructor (start (JNum q)) = (Ok tt, empty (JNum q)))
  /\ constructor (start (JStr EmptyString)) = (Ok tt, empty (JStr EmptyString))
  /\ constructor (start (JArr [])) = (Ok tt, empty (JArr []))
  /\ constructor (start (JObj [])) = (Ok tt, empty (JObj [])).
Proof. cbv zeta. repeat split; reflexivity. Qed.

(** ** Limits of getHistory *)

(** X7.  With a limit whose integer part is at least one, [getHistory]
    returns the newest messages of the stored log, oldest first: as many as
    the integer part of the limit, or the whole log when it is shorter.  What
    is left out is the older end of the log. *)
Theorem getHistory_within_limit (w : world) (uid : string) (limit : Q) :
  1 <= to_integer limit ->
  exists older recent,
    (getHistory uid (Some limit) w).1 = Ok recent
    /\ stored uid w = older ++ recent
    /\ length recent = Nat.min (Z.to_nat (to_integer limit)) (length (stored uid w)).
Proof.
  intros Hl. rewrite (getHistory_positive_limit w uid limit Hl). cbn [fst].
  rewrite newest_min.
  destruct (newest_suffix (Z.to_nat (to_integer limit)) (stored uid w))
    as (older & Heq & _).
  exists older, (newest (Z.to_nat (to_integer limit)) (stored uid w)).
  split; [reflexivity|]. split; [exact Heq|]. apply newest_length.
Qed.

Lemma getHistory_within_limit_witness :
  1 <= to_integer (5 # 2)
  /\ exists older recent,
       (getHistory "42" (Some (5 # 2)) sample_world).1 = Ok recent
       /\ stored "42" sample_world = older ++ recent
       /\ length recent
          = Nat.min (Z.to_nat (to_integer (5 # 2))) (length (stored "42" sample_world)).
Proof.
  split; [vm_compute; discriminate|].
  apply (getHistory_within_limit sample_world "42" (5 # 2)). vm_compute. discriminate.
Defined.

(** X8.  With a negative limit [slice] receives a positive start: instead of
    limiting, [getHistory] drops the oldest messages, as many as the limit
    is below zero, and returns all the others. *)
Theorem getHistory_below_zero (w : world) (uid : string) (limit : Q) :
  to_integer limit < 0 ->
  exists dropped rest,
    (getHistory uid (Some limit) w).1 = Ok rest
    /\ stored uid w = dropped ++ rest
    /\ length dropped
       = Nat.min (Z.to_nat (- to_integer limit)) (length (stored uid w)).
Proof.
  intros Hl. rewrite (getHistory_negative_limit w uid limit Hl). cbn [fst].
  exists (take (Z.to_nat (- to_integer limit)) (stored uid w)),
         (drop (Z.to_nat (- to_integer limit)) (stored uid w)).
  split; [reflexivity|]. split; [symmetry; apply take_drop|]. apply length_take.
Qed.

Lemma getHistory_below_zero_witness :
  to_integer (- 1 # 1) < 0
  /\ exists dropped rest,
       (getHistory "42" (Some (- 1 # 1)) sample_world).1 = Ok rest
       /\ stored "42" sample_world = dropped ++ rest
       /\ length dropped
          = Nat.min (Z.to_nat (- to_integer (- 1 # 1))) (length (stored "42" sample_world)).
Proof.
  split; [reflexivity|].
  apply (getHistory_below_zero sample_world "42" (- 1 # 1)). reflexivity.
Defined.

End ChatHistoryMore.

(** * More properties of the dispatcher *)

Module OpenaiMore.
Import Openai OpenaiProps.

(** ** Helpers *)


Lemma in_on_error (e : environment) (error : exn) (t : list event) :
  ConsoleError "Error:" error ∈ (on_error e error t).2.
Proof.
  cbv beta iota delta [on_error bind console_error reply emit modify await].
  destruct (reply_outcome e apology); cbn [snd]; set_solver.
Qed.

Lemma outcomes_on_error (e : environment) (error : exn) (t : list event) :
  reply_outcome e apology = Ok tt ->
  outcomes (on_error e error t).2 = outcomes t ++ [Replied apology None].
Proof.
  intros Hreply. rewrite (on_error_run e error t Hreply). cbn [snd].
  rewrite !outcomes_app. cbn [outcomes]. rewrite app_nil_r. reflexivity.
Qed.

Local Notation "'logged'" :=
  [ConsoleLog "messages";
   ConsoleLog "Determining if need to call agent or function:";
   ConsoleLog "Tool call:"; ConsoleLog "Response:"].

Lemma processMessage_parsed (e : environment) (ctx : MyContext)
    (store : ChatHistoryStore.world) (c : ChatCompletion) (tc : tool_call) (args : json) :
  service_answer e ctx store = Some (Ok c) ->
  selection c = Some tc ->
  raw_arguments tc = Doc args ->
  processMessage e ctx store []
  = try_catch (dispatch e (function_name tc) args) (on_error e) logged.
Proof.
  intros Hans Hsel Hraw.
  rewrite (processMessage_selection e ctx store c tc Hans Hsel), Hraw. reflexivity.
Qed.

Lemma dispatch_target (e : environment) (name : string) (args : json)
    (h : handler_call) (t : list event) :
  target name args = Some h -> dispatch e name args t = invoke e h t.
Proof.
  unfold target, dispatch.
  destruct (String.eqb name "mint");
    [destruct args; intros [= <-]; reflexivity|].
  destruct (String.eqb name "balance"); [intros [= <-]; reflexivity|].
  destruct (String.eqb name "redeem");
    [destruct args; intros [= <-]; reflexivity|].
  destruct (String.eqb name "withdraw");
    [destruct args; intros [= <-]; reflexivity|].
  destruct (String.eqb name "deposit"); [intros [= <-]; reflexivity|].
  discriminate.
Qed.

Lemma processMessage_no_selection (e : environment) (ctx : MyContext)
    (store : ChatHistoryStore.world) (c : ChatCompletion)
    (first : completion_message) (rest : list completion_message) :
  service_answer e ctx store = Some (Ok c) ->
  choices c = first :: rest ->
  selection c = None ->
  processMessage e ctx store []
  = try_catch
      (reply e (match content first with
                | Some r => if String.eqb r EmptyString then fallback else r
                | None => fallback
                end) None)
      (on_error e) logged.
Proof.
  intros Hans Hchoices Hsel.
  rewrite (processMessage_asks e ctx store (Ok c) [] Hans).
  unfold selection in Hsel. rewrite Hchoices in Hsel.
  unfold try_catch, bind at 1, await, route. rewrite Hchoices.
  cbv beta iota delta [bind ret console_log emit modify]. cbn [app].
  destruct (tool_calls first) as [[|tc tcs]|]; try discriminate;
    destruct (content first) as [r|]; try reflexivity;
    destruct (String.eqb r EmptyString); reflexivity.
Qed.


Lemma special_is_not_plain (c : ascii) :
  bool_decide (c ∈ markdown_special) = false -> Ascii.eqb c "\" = false.
Proof.
  intros Hc. destruct (Ascii.eqb_spec c "\") as [->|]; [|reflexivity].
  vm_compute in Hc. discriminate Hc.
Qed.

(** ** The guard *)

(** X12.  A turn without text, with the empty text, without a user id or
    with the user id zero is ignored: no collaborator is consulted, nothing
    is logged, invoked or replied, and the call returns. *)
Theorem turn_without_text_or_user_is_ignored (e : environment) (ctx : MyContext)
    (store : ChatHistoryStore.world) (t : list event) :
  message_text ctx = None \/ message_text ctx = Some EmptyString
  \/ from_id ctx = None \/ from_id ctx = Some 0 ->
  processMessage e ctx store t = (Ok tt, t)
  /\ service_answer e ctx store = None.
Proof.
  unfold processMessage, service_answer.
  intros [Hm|[Hm|[Hf|Hf]]]; rewrite ?Hm, ?Hf.
  - split; reflexivity.
  - destruct (from_id ctx); split; reflexivity.
  - destruct (message_text ctx); split; reflexivity.
  - destruct (message_text ctx) as [message|]; [|split; reflexivity].
    rewrite Z.eqb_refl, orb_true_r. split; reflexivity.
Qed.

Lemma turn_without_text_or_user_is_ignored_witness :
  (message_text {| message_text := Some "hello"; from_id := Some 0 |} = None
   \/ message_text {| message_text := Some "hello"; from_id := Some 0 |} = Some EmptyString
   \/ from_id {| message_text := Some "hello"; from_id := Some 0 |} = None
   \/ from_id {| message_text := Some "hello"; from_id := Some 0 |} = Some 0)
  /\ processMessage (sample_env (Ok (saying (Some "Hello."))))
       {| message_text := Some "hello"; from_id := Some 0 |}
       ChatHistoryStore.sample_world []
     = (Ok tt, [])
  /\ service_answer (sample_env (Ok (saying (Some "Hello."))))
       {| message_text := Some "hello"; from_id := Some 0 |}
       ChatHistoryStore.sample_world
     = None.
Proof.
  split; [right; right; right; reflexivity|].
  apply (turn_without_text_or_user_is_ignored (sample_env (Ok (saying (Some "Hello."))))
           {| message_text := Some "hello"; from_id := Some 0 |}
           ChatHistoryStore.sample_world []).
  right; right; right; reflexivity.
Defined.

(** ** Arguments that do not parse, or parse to null *)

(** X13.  When the arguments of the selected tool do not parse, no handler
    is invoked, whatever the name, the tools that take no argument
    included; the syntax error is logged and, if the transport delivers it,
    the apology is the only outcome of the turn. *)
Theorem malformed_arguments_never_dispatch (e : environment) (ctx : MyContext)
    (store : ChatHistoryStore.world) (c : ChatCompletion) (tc : tool_call) :
  service_answer e ctx store = Some (Ok c) ->
  selection c = Some tc ->
  raw_arguments tc = Malformed ->
  let run := processMessage e ctx store [] in
  handlers_invoked run.2 = []
  /\ ConsoleError "Error:" SyntaxError ∈ run.2
  /\ (reply_outcome e apology = Ok tt ->
      run.1 = Ok tt /\ outcomes run.2 = [Replied apology None]).
Proof.
  intros Hans Hsel Hraw run. subst run.
  rewrite (processMessage_selection e ctx store c tc Hans Hsel), Hraw.
  cbv beta iota delta [try_catch bind JSON_parse throw].
  split; [apply on_error_handlers|]. split; [apply in_on_error|].
  intros Hreply. rewrite outcomes_on_error by exact Hreply.
  rewrite on_error_run by exact Hreply. split; reflexivity.
Qed.

Lemma malformed_arguments_never_dispatch_witness :
  let answer := selecting "deposit" (Some Malformed) in
  let tc := {| function_name := "deposit"; function_arguments := Some Malformed |} in
  let e := sample_env (Ok answer) in
  let run := processMessage e sample_ctx ChatHistoryStore.sample_world [] in
  service_answer e sample_ctx ChatHistoryStore.sample_world = Some (Ok answer)
  /\ selection answer = Some tc
  /\ raw_arguments tc = Malformed
  /\ reply_outcome e apology = Ok tt
  /\ handlers_invoked run.2 = []
  /\ ConsoleError "Error:" SyntaxError ∈ run.2
  /\ run.1 = Ok tt
  /\ outcomes run.2 = [Replied apology None].
Proof.
  intros answer tc e run.
  destruct (malformed_arguments_never_dispatch e sample_ctx ChatHistoryStore.sample_world
              answer tc eq_refl eq_refl eq_refl) as (Hnone & Hlog & Hreply).
  destruct (Hreply eq_refl) as [Hok Honly].
  do 4 (split; [reflexivity|]).
  split; [exact Hnone|]. split; [exact Hlog|]. split; [exact Hok|exact Honly].
Defined.

(** X14.  When the arguments parse to null and the selected tool is one
    whose [case] reads a property of them (mint, redeem, withdraw, chat),
    the read throws before any handler is invoked: the type error is
    logged and, if the transport delivers it, the apology is the only
    outcome. *)
Theorem null_arguments_never_dispatch (e : environment) (ctx : MyContext)
    (store : ChatHistoryStore.world) (c : ChatCompletion) (tc : tool_call) :
  service_answer e ctx store = Some (Ok c) ->
  selection c = Some tc ->
  raw_arguments tc = Doc JNull ->
  function_name tc ∈ ["mint"; "redeem"; "withdraw"; "chat"] ->
  let run := processMessage e ctx store [] in
  handlers_invoked run.2 = []
  /\ ConsoleError "Error:" TypeError ∈ run.2
  /\ (reply_outcome e apology = Ok tt ->
      run.1 = Ok tt /\ outcomes run.2 = [Replied apology None]).
Proof.
  intros Hans Hsel Hraw Hname run. subst run.
  rewrite (processMessage_parsed e ctx store c tc JNull Hans Hsel Hraw).
  assert (Hthrows : forall t, dispatch e (function_name tc) JNull t = (Throw TypeError, t)).
  { intros t.
    repeat (apply elem_of_cons in Hname as [->|Hname]; [reflexivity|]).
    apply elem_of_nil in Hname. contradiction. }
  unfold try_catch. rewrite Hthrows.
  split; [apply on_error_handlers|]. split; [apply in_on_error|].
  intros Hreply. rewrite outcomes_on_error by exact Hreply.
  rewrite on_error_run by exact Hreply. split; reflexivity.
Qed.

Lemma null_arguments_never_dispatch_witness :
  let answer := selecting "mint" (Some (Doc JNull)) in
  let tc := {| function_name := "mint"; function_arguments := Some (Doc JNull) |} in
  let e := sample_env (Ok answer) in
  let run := processMessage e sample_ctx ChatHistoryStore.sample_world [] in
  service_answer e sample_ctx ChatHistoryStore.sample_world = Some (Ok answer)
  /\ selection answer = Some tc
  /\ raw_arguments tc = Doc JNull
  /\ ("mint" ∈ ["mint"; "redeem"; "withdraw"; "chat"])
  /\ reply_outcome e apology = Ok tt
  /\ handlers_invoked run.2 = []
  /\ ConsoleError "Error:" TypeError ∈ run.2
  /\ run.1 = Ok tt
  /\ outcomes run.2 = [Replied apology None].
Proof.
  intros answer tc e run.
  assert (Hname : "mint" ∈ ["mint"; "redeem"; "withdraw"; "chat"]) by apply list_elem_of_here.
  destruct (null_arguments_never_dispatch e sample_ctx ChatHistoryStore.sample_world
              answer tc eq_refl eq_refl eq_refl Hname) as (Hnone & Hlog & Hreply).
  destruct (Hreply eq_refl) as [Hok Honly].
  do 3 (split; [reflexivity|]).
  split; [exact Hname|]. split; [reflexivity|].
  split; [exact Hnone|]. split; [exact Hlog|]. split; [exact Hok|exact Honly].
Defined.

(** ** Handlers *)

(** X15.  When the [switch] makes a handler call (mint, balance, redeem,
    withdraw, deposit, with arguments that are not null where a property is
    read), the handler is invoked exactly once, with each argument exactly
    as the parsed arguments give it and undefined when they lack it; when
    the handler returns, the turn returns and that invocation is its only
    outcome: the dispatcher adds no reply of its own. *)
Theorem selected_handler_is_invoked_once (e : environment) (ctx : MyContext)
    (store : ChatHistoryStore.world) (c : ChatCompletion) (tc : tool_call)
    (args : json) (h : handler_call) :
  service_answer e ctx store = Some (Ok c) ->
  selection c = Some tc ->
  raw_arguments tc = Doc args ->
  target (function_name tc) args = Some h ->
  let run := processMessage e ctx store [] in
  handlers_invoked run.2 = [h]
  /\ (handler_outcome e h = Ok tt -> run.1 = Ok tt /\ outcomes run.2 = [Invoked h]).
Proof.
  intros Hans Hsel Hraw Htarget run. subst run.
  rewrite (processMessage_parsed e ctx store c tc args Hans Hsel Hraw).
  unfold try_catch. rewrite (dispatch_target e _ args h _ Htarget).
  cbv beta iota delta [invoke bind emit modify await].
  destruct (handler_outcome e h) as [[]|err|]; cbn [fst snd app handlers_invoked outcomes].
  - split; [reflexivity|]. intros _. split; reflexivity.
  - rewrite on_error_handlers. cbn [handlers_invoked]. split; [reflexivity|discriminate].
  - split; [reflexivity|discriminate].
Qed.

Lemma selected_handler_is_invoked_once_witness :
  let args := JObj [("amount", JNum (101 # 2))] in
  let answer := selecting "redeem" (Some (Doc args)) in
  let tc := {| function_name := "redeem"; function_arguments := Some (Doc args) |} in
  let e := sample_env (Ok answer) in
  let run := processMessage e sample_ctx ChatHistoryStore.sample_world [] in
  service_answer e sample_ctx ChatHistoryStore.sample_world = Some (Ok answer)
  /\ selection answer = Some tc
  /\ raw_arguments tc = Doc args
  /\ target "redeem" args = Some (handleConvertAmount (Some (JNum (101 # 2))))
  /\ handler_outcome e (handleConvertAmount (Some (JNum (101 # 2)))) = Ok tt
  /\ handlers_invoked run.2 = [handleConvertAmount (Some (JNum (101 # 2)))]
  /\ run.1 = Ok tt
  /\ outcomes run.2 = [Invoked (handleConvertAmount (Some (JNum (101 # 2))))].
Proof.
  intros args answer tc e run.
  destruct (selected_handler_is_invoked_once e sample_ctx ChatHistoryStore.sample_world
              answer tc args (handleConvertAmount (Some (JNum (101 # 2))))
              eq_refl eq_refl eq_refl eq_refl) as [Hinvoked Hreturns].
  destruct (Hreturns eq_refl) as [Hok Honly].
  do 5 (split; [reflexivity|]).
  split; [exact Hinvoked|]. split; [exact Hok|exact Honly].
Defined.

(** X16.  When the invoked handler throws, the fault is caught: it is
    logged and, if the transport delivers it, the apology is sent, so the
    turn has two outcomes, the invocation and then the apology, and the
    call returns. *)
Theorem handler_fault_gets_apology (e : environment) (ctx : MyContext)
    (store : ChatHistoryStore.world) (c : ChatCompletion) (tc : tool_call)
    (args : json) (h : handler_call) (error : exn) :
  service_answer e ctx store = Some (Ok c) ->
  selection c = Some tc ->
  raw_arguments tc = Doc args ->
  target (function_name tc) args = Some h ->
  handler_outcome e h = Throw error ->
  reply_outcome e apology = Ok tt ->
  let run := processMessage e ctx store [] in
  run.1 = Ok tt
  /\ outcomes run.2 = [Invoked h; Replied apology None]
  /\ ConsoleError "Error:" error ∈ run.2.
Proof.
  intros Hans Hsel Hraw Htarget Hthrows Hreply run. subst run.
  rewrite (processMessage_parsed e ctx store c tc args Hans Hsel Hraw).
  unfold try_catch. rewrite (dispatch_target e _ args h _ Htarget).
  cbv beta iota delta [invoke bind emit modify await]. rewrite Hthrows.
  split; [rewrite on_error_run by exact Hreply; reflexivity|].
  split; [|apply in_on_error].
  rewrite outcomes_on_error by exact Hreply. reflexivity.
Qed.

Lemma handler_fault_gets_apology_witness :
  let answer := selecting "deposit" None in
  let tc := {| function_name := "deposit"; function_arguments := None |} in
  let e := handler_fault_env (Ok answer) in
  let run := processMessage e sample_ctx ChatHistoryStore.sample_world [] in
  service_answer e sample_ctx ChatHistoryStore.sample_world = Some (Ok answer)
  /\ selection answer = Some tc
  /\ raw_arguments tc = Doc (JObj [])
  /\ target "deposit" (JObj []) = Some handleDeposit
  /\ handler_outcome e handleDeposit = Throw ServiceError
  /\ reply_outcome e apology = Ok tt
  /\ run.1 = Ok tt
  /\ outcomes run.2 = [Invoked handleDeposit; Replied apology None]
  /\ ConsoleError "Error:" ServiceError ∈ run.2.
Proof.
  intros answer tc e run.
  do 6 (split; [reflexivity|]).
  apply (handler_fault_gets_apology e sample_ctx ChatHistoryStore.sample_world
           answer tc (JObj []) handleDeposit ServiceError); reflexivity.
Defined.

(** ** Answers without a selection *)

(** X17.  When the answer selects no tool, the reply is the text of the
    answer, sent as it is (not escaped, no parse mode), or the fixed
    fallback text when the answer has no text or an empty one; it is the
    only outcome and no handler is invoked. *)
Theorem no_selection_replies_text_or_fallback (e : environment) (ctx : MyContext)
    (store : ChatHistoryStore.world) (c : ChatCompletion)
    (first : completion_message) (rest : list completion_message) :
  service_answer e ctx store = Some (Ok c) ->
  choices c = first :: rest ->
  selection c = None ->
  let reply_text :=
    match content first with
    | Some r => if String.eqb r EmptyString then fallback else r
    | None => fallback
    end in
  reply_outcome e reply_text = Ok tt ->
  let run := processMessage e ctx store [] in
  run.1 = Ok tt /\ outcomes run.2 = [Replied reply_text None].
Proof.
  intros Hans Hchoices Hsel reply_text Hreply run. subst run.
  rewrite (processMessage_no_selection e ctx store c first rest Hans Hchoices Hsel).
  fold reply_text.
  cbv beta iota delta [try_catch reply bind await emit modify]. rewrite Hreply.
  split; reflexivity.
Qed.

Lemma no_selection_replies_text_or_fallback_witness :
  let first := {| tool_calls := Some []; content := Some EmptyString |} in
  let answer := {| choices := [first] |} in
  let e := sample_env (Ok answer) in
  let run := processMessage e sample_ctx ChatHistoryStore.sample_world [] in
  service_answer e sample_ctx ChatHistoryStore.sample_world = Some (Ok answer)
  /\ choices answer = [first]
  /\ selection answer = None
  /\ reply_outcome e fallback = Ok tt
  /\ run.1 = Ok tt
  /\ outcomes run.2 = [Replied fallback None].
Proof.
  intros first answer e run.
  do 4 (split; [reflexivity|]).
  apply (no_selection_replies_text_or_fallback e sample_ctx ChatHistoryStore.sample_world
           answer first []); reflexivity.
Defined.

(** X18.  When the reply of a turn without selection cannot be delivered,
    the fault is caught and the apology is tried: if it is delivered it is
    the only outcome and the call returns; if it too fails, the call raises
    that second fault and nothing has reached the user. *)
Theorem undelivered_reply (e : environment) (ctx : MyContext)
    (store : ChatHistoryStore.world) (c : ChatCompletion)
    (first : completion_message) (rest : list completion_message) (error : exn) :
  service_answer e ctx store = Some (Ok c) ->
  choices c = first :: rest ->
  selection c = None ->
  reply_outcome e (match content first with
                   | Some r => if String.eqb r EmptyString then fallback else r
                   | None => fallback
                   end) = Throw error ->
  let run := processMessage e ctx store [] in
  ConsoleError "Error:" error ∈ run.2
  /\ (reply_outcome e apology = Ok tt ->
      run.1 = Ok tt /\ outcomes run.2 = [Replied apology None])
  /\ (forall error', reply_outcome e apology = Throw error' ->
      run.1 = Throw error' /\ outcomes run.2 = []).
Proof.
  intros Hans Hchoices Hsel Hthrows run. subst run.
  rewrite (processMessage_no_selection e ctx store c first rest Hans Hchoices Hsel).
  cbv beta iota delta [try_catch reply bind await emit modify]. rewrite Hthrows.
  split; [apply in_on_error|]. split.
  - intros Hreply. rewrite outcomes_on_error by exact Hreply.
    rewrite on_error_run by exact Hreply. split; reflexivity.
  - intros error' Hfail.
    cbv beta iota delta [on_error bind console_error reply emit modify await].
    rewrite Hfail. split; reflexivity.
Qed.

Lemma undelivered_reply_witness :
  let first := {| tool_calls := None; content := Some "Hello." |} in
  let answer := saying (Some "Hello.") in
  let e := reply_fault_env (Ok answer) in
  let run := processMessage e sample_ctx ChatHistoryStore.sample_world [] in
  service_answer e sample_ctx ChatHistoryStore.sample_world = Some (Ok answer)
  /\ choices answer = [first]
  /\ selection answer = None
  /\ reply_outcome e "Hello." = Throw ServiceError
  /\ reply_outcome e apology = Ok tt
  /\ ConsoleError "Error:" ServiceError ∈ run.2
  /\ run.1 = Ok tt
  /\ outcomes run.2 = [Replied apology None].
Proof.
  intros first answer e run.
  destruct (undelivered_reply e sample_ctx ChatHistoryStore.sample_world
              answer first [] ServiceError eq_refl eq_refl eq_refl eq_refl)
    as (Hlog & Hdelivered & _).
  destruct (Hdelivered eq_refl) as [Hok Honly].
  do 5 (split; [reflexivity|]).
  split; [exact Hlog|]. split; [exact Hok|exact Honly].
Defined.

(** X19.  When the answer of the reasoning service has no choice at all,
    reading the first one throws: no handler is invoked, the type error is
    logged and, if the transport delivers it, the apology is the only
    outcome. *)
Theorem empty_choices_get_apology (e : environment) (ctx : MyContext)
    (store : ChatHistoryStore.world) (c : ChatCompletion) :
  service_answer e ctx store = Some (Ok c) ->
  choices c = [] ->
  let run := processMessage e ctx store [] in
  handlers_invoked run.2 = []
  /\ ConsoleError "Error:" TypeError ∈ run.2
  /\ (reply_outcome e apology = Ok tt ->
      run.1 = Ok tt /\ outcomes run.2 = [Replied apology None]).
Proof.
  intros Hans Hchoices run. subst run.
  assert (Hrun : processMessage e ctx store []
                 = on_error e TypeError
                     [ConsoleLog "messages";
                      ConsoleLog "Determining if need to call agent or function:"]).
  { rewrite (processMessage_asks e ctx store (Ok c) [] Hans).
    unfold try_catch, bind at 1, await, route. rewrite Hchoices. reflexivity. }
  rewrite Hrun.
  split; [apply on_error_handlers|]. split; [apply in_on_error|].
  intros Hreply. rewrite outcomes_on_error by exact Hreply.
  rewrite on_error_run by exact Hreply. split; reflexivity.
Qed.

Lemma empty_choices_get_apology_witness :
  let answer := {| choices := [] |} in
  let e := sample_env (Ok answer) in
  let run := processMessage e sample_ctx ChatHistoryStore.sample_world [] in
  service_answer e sample_ctx ChatHistoryStore.sample_world = Some (Ok answer)
  /\ choices answer = []
  /\ reply_outcome e apology = Ok tt
  /\ handlers_invoked run.2 = []
  /\ ConsoleError "Error:" TypeError ∈ run.2
  /\ run.1 = Ok tt
  /\ outcomes run.2 = [Replied apology None].
Proof.
  intros answer e run.
  destruct (empty_choices_get_apology e sample_ctx ChatHistoryStore.sample_world
              answer eq_refl eq_refl) as (Hnone & Hlog & Hreply).
  destruct (Hreply eq_refl) as [Hok Honly].
  do 3 (split; [reflexivity|]).
  split; [exact Hnone|]. split; [exact Hlog|]. split; [exact Hok|exact Honly].
Defined.

(** ** The chat tool *)

(** X20.  When the chat tool is selected with a message that is a string,
    the reply is that message with every character of the markdown class
    escaped, sent once in MarkdownV2 mode; it is the only outcome and no
    imported handler is invoked. *)
Theorem chat_replies_escaped_once (e : environment) (ctx : MyContext)
    (store : ChatHistoryStore.world) (c : ChatCompletion) (tc : tool_call)
    (args : json) (message : string) :
  service_answer e ctx store = Some (Ok c) ->
  selection c = Some tc ->
  function_name tc = "chat" ->
  raw_arguments tc = Doc args ->
  member "message" args = Some (JStr message) ->
  reply_outcome e (escapeMarkdown message) = Ok tt ->
  let run := processMessage e ctx store [] in
  run.1 = Ok tt
  /\ outcomes run.2 = [Replied (escapeMarkdown message) (Some "MarkdownV2")].
Proof.
  intros Hans Hsel Hname Hraw Hmessage Hreply run. subst run.
  rewrite (processMessage_parsed e ctx store c tc args Hans Hsel Hraw), Hname.
  destruct args as [| | | | |members]; try discriminate. cbn [member] in Hmessage.
  unfold dispatch. cbn [String.eqb Ascii.eqb Bool.eqb].
  cbv beta iota delta [try_catch bind prop ret]. rewrite Hmessage.
  cbv beta iota delta [chat reply bind await emit modify]. rewrite Hreply.
  split; reflexivity.
Qed.

Lemma chat_replies_escaped_once_witness :
  let args := JObj [("message", JStr "You have 12.5 USDC.")] in
  let answer := selecting "chat" (Some (Doc args)) in
  let tc := {| function_name := "chat"; function_arguments := Some (Doc args) |} in
  let e := sample_env (Ok answer) in
  let run := processMessage e sample_ctx ChatHistoryStore.sample_world [] in
  service_answer e sample_ctx ChatHistoryStore.sample_world = Some (Ok answer)
  /\ selection answer = Some tc
  /\ member "message" args = Some (JStr "You have 12.5 USDC.")
  /\ reply_outcome e (escapeMarkdown "You have 12.5 USDC.") = Ok tt
  /\ run.1 = Ok tt
  /\ outcomes run.2
     = [Replied (escapeMarkdown "You have 12.5 USDC.") (Some "MarkdownV2")].
Proof.
  intros args answer tc e run.
  do 4 (split; [reflexivity|]).
  apply (chat_replies_escaped_once e sample_ctx ChatHistoryStore.sample_world
           answer tc args "You have 12.5 USDC."); reflexivity.
Defined.

(** X21.  When the chat tool is selected with arguments that parse to
    something other than null but hold no message, or a message that is not
    a string, [escapeMarkdown] throws on it: nothing is sent in MarkdownV2
    mode, the type error is logged and, if the transport delivers it, the
    apology is the only outcome. *)
Theorem chat_without_text_gets_apology (e : environment) (ctx : MyContext)
    (store : ChatHistoryStore.world) (c : ChatCompletion) (tc : tool_call) (args : json) :
  service_answer e ctx store = Some (Ok c) ->
  selection c = Some tc ->
  function_name tc = "chat" ->
  raw_arguments tc = Doc args ->
  args <> JNull ->
  (forall message, member "message" args <> Some (JStr message)) ->
  let run := processMessage e ctx store [] in
  handlers_invoked run.2 = []
  /\ ConsoleError "Error:" TypeError ∈ run.2
  /\ (reply_outcome e apology = Ok tt ->
      run.1 = Ok tt /\ outcomes run.2 = [Replied apology None]).
Proof.
  intros Hans Hsel Hname Hraw Hnull Hmessage run. subst run.
  rewrite (processMessage_parsed e ctx store c tc args Hans Hsel Hraw), Hname.
  assert (Hthrows : forall t, dispatch e "chat" args t = (Throw TypeError, t)).
  { intros t. unfold dispatch. cbn [String.eqb Ascii.eqb Bool.eqb].
    unfold bind. rewrite (prop_member "message" args t Hnull).
    destruct (member "message" args) as [[| | |message| |]|] eqn:Hm; try reflexivity.
    exfalso. apply (Hmessage message). reflexivity. }
  unfold try_catch. rewrite Hthrows.
  split; [apply on_error_handlers|]. split; [apply in_on_error|].
  intros Hreply. rewrite outcomes_on_error by exact Hreply.
  rewrite on_error_run by exact Hreply. split; reflexivity.
Qed.

Lemma chat_without_text_gets_apology_witness :
  let args := JObj [("message", JNum 5)] in
  let answer := selecting "chat" (Some (Doc args)) in
  let tc := {| function_name := "chat"; function_arguments := Some (Doc args) |} in
  let e := sample_env (Ok answer) in
  let run := processMessage e sample_ctx ChatHistoryStore.sample_world [] in
  service_answer e sample_ctx ChatHistoryStore.sample_world = Some (Ok answer)
  /\ selection answer = Some tc
  /\ args <> JNull
  /\ (forall message, member "message" args <> Some (JStr message))
  /\ reply_outcome e apology = Ok tt
  /\ handlers_invoked run.2 = []
  /\ ConsoleError "Error:" TypeError ∈ run.2
  /\ run.1 = Ok tt
  /\ outcomes run.2 = [Replied apology None].
Proof.
  intros args answer tc e run.
  assert (Hnull : args <> JNull) by discriminate.
  assert (Hmessage : forall message, member "message" args <> Some (JStr message))
    by (intros message; discriminate).
  destruct (chat_without_text_gets_apology e sample_ctx ChatHistoryStore.sample_world
              answer tc args eq_refl eq_refl eq_refl eq_refl Hnull Hmessage)
    as (Hnone & Hlog & Hreply).
  destruct (Hreply eq_refl) as [Hok Honly].
  do 2 (split; [reflexivity|]).
  split; [exact Hnull|]. split; [exact Hmessage|]. split; [reflexivity|].
  split; [exact Hnone|]. split; [exact Hlog|]. split; [exact Hok|exact Honly].
Defined.

(** ** What the reasoning service is asked *)



(** ** One outcome *)

(** X23.  With collaborators that all return, whatever the reasoning
    service answers (a fault, no choice, text, no text, a selection with
    arguments that parse or not), a turn that reaches the service has
    exactly one outcome, a handler invocation or a reply, except when the
    answer selects, with arguments that parse, a name without a [case]:
    then it has none. *)
Theorem one_outcome_unless_unhandled (e : environment) (ctx : MyContext)
    (store : ChatHistoryStore.world) (answer : result ChatCompletion) :
  (forall h, handler_outcome e h = Ok tt) ->
  (forall reply_text, reply_outcome e reply_text = Ok tt) ->
  service_answer e ctx store = Some answer ->
  answer <> IllTyped ->
  length (outcomes (processMessage e ctx store []).2)
  = if unhandled answer then 0%nat else 1%nat.
Proof. apply outcome_count. Qed.

Lemma one_outcome_unless_unhandled_witness :
  let answer :=
    Ok {| choices :=
            [ {| tool_calls :=
                   Some [ {| function_name := "mint";
                             function_arguments :=
                               Some (Doc (JObj [("amount", JNum 50)])) |} ];
                 content := Some "Minting 50." |} ] |} in
  let e := sample_env answer in
  (forall h, handler_outcome e h = Ok tt)
  /\ (forall reply_text, reply_outcome e reply_text = Ok tt)
  /\ service_answer e sample_ctx ChatHistoryStore.sample_world = Some answer
  /\ answer <> IllTyped
  /\ unhandled answer = false
  /\ length (outcomes (processMessage e sample_ctx ChatHistoryStore.sample_world []).2)
     = 1%nat.
Proof.
  intros answer e.
  assert (Hh : forall h, handler_outcome e h = Ok tt) by reflexivity.
  assert (Hr : forall reply_text, reply_outcome e reply_text = Ok tt) by reflexivity.
  assert (Hill : answer <> IllTyped) by discriminate.
  split; [exact Hh|]. split; [exact Hr|]. split; [reflexivity|].
  split; [exact Hill|]. split; [reflexivity|].
  apply (one_outcome_unless_unhandled e sample_ctx ChatHistoryStore.sample_world answer
           Hh Hr eq_refl Hill).
Defined.



(** ** chatAPI *)

(** X24.  With a transport that delivers, [chatAPI] sends exactly one
    reply and invokes no handler: the text of the first element of the
    response; the fixed "unable" text when that element has no text or an
    empty one; the apology when the request fails or times out, or when the
    response has no element. *)
Theorem chatAPI_replies_once (e : environment)
    (post : string -> string -> result (list api_message)) (message userId : string) :
  (forall reply_text, reply_outcome e reply_text = Ok tt) ->
  post message userId <> IllTyped ->
  let run := chatAPI e post message userId [] in
  run.1 = Ok tt
  /\ handlers_invoked run.2 = []
  /\ outcomes run.2
     = [Replied
          (match post message userId with
           | Ok (first :: _) =>
               match api_text first with
               | Some t => if String.eqb t EmptyString then unable else t
               | None => unable
               end
           | _ => apology
           end) None].
Proof.
  intros Hreply Hill run. subst run. unfold chatAPI.
  destruct (post message userId) as [[|first rest]|error|]; [| | |contradiction];
    cbv beta iota delta [try_catch bind await ret throw reply console_error emit modify];
    rewrite ?Hreply; cbv beta iota; rewrite ?Hreply; repeat split; reflexivity.
Qed.

Lemma chatAPI_replies_once_witness :
  let e := sample_env (Throw ServiceError) in
  let post := fun _ _ : string => @Throw (list api_message) ServiceError in
  let run := chatAPI e post "hello" "42" [] in
  (forall reply_text, reply_outcome e reply_text = Ok tt)
  /\ post "hello" "42" <> IllTyped
  /\ run.1 = Ok tt
  /\ handlers_invoked run.2 = []
  /\ outcomes run.2 = [Replied apology None].
Proof.
  intros e post run.
  assert (Hr : forall reply_text, reply_outcome e reply_text = Ok tt) by reflexivity.
  assert (Hill : post "hello" "42" <> IllTyped) by discriminate.
  split; [exact Hr|]. split; [exact Hill|].
  apply (chatAPI_replies_once e post "hello" "42" Hr Hill).
Defined.

(** ** escapeMarkdown *)

(** X25.  [escapeMarkdown] loses nothing: dropping the backslashes it put
    gives the text back, so two different texts are never escaped to the
    same text. *)
Theorem escapeMarkdown_loses_nothing (s s' : string) :
  unescape (escapeMarkdown s) = s
  /\ (escapeMarkdown s = escapeMarkdown s' -> s = s').
Proof.
  assert (Hback : forall x, unescape (escapeMarkdown x) = x).
  { induction x as [|c x IH]; [reflexivity|].
    cbn [escapeMarkdown]. destruct (bool_decide (c ∈ markdown_special)) eqn:Hc.
    - cbn [unescape]. rewrite Ascii.eqb_refl, IH. reflexivity.
    - cbn [unescape]. rewrite (special_is_not_plain c Hc), IH. reflexivity. }
  split; [apply Hback|].
  intros Heq. rewrite <- (Hback s), <- (Hback s'), Heq. reflexivity.
Qed.

(** X26.  In the text that [escapeMarkdown] returns every character of the
    markdown class stands right after a backslash that escapes it, and
    every backslash escapes a character of the class. *)
Theorem escapeMarkdown_well_escaped (s : string) :
  well_escaped (escapeMarkdown s) = true.
Proof.
  induction s as [|c s IH]; [reflexivity|].
  cbn [escapeMarkdown]. destruct (bool_decide (c ∈ markdown_special)) eqn:Hc.
  - cbn [well_escaped]. rewrite Ascii.eqb_refl, Hc, IH. reflexivity.
  - cbn [well_escaped]. rewrite (special_is_not_plain c Hc), Hc, IH. reflexivity.
Qed.

(** X27.  [escapeMarkdown] works character by character: the escape of a
    concatenation is the concatenation of the escapes, the result is longer
    than the text by the number of characters of the class in it, and it is
    the text itself exactly when the text has none. *)
Theorem escapeMarkdown_by_character (a b : string) :
  escapeMarkdown (a +:+ b) = escapeMarkdown a +:+ escapeMarkdown b
  /\ String.length (escapeMarkdown a) = (String.length a + count_special a)%nat
  /\ (escapeMarkdown a = a <-> count_special a = 0%nat).
Proof.
  assert (Hlen : forall x,
            String.length (escapeMarkdown x) = (String.length x + count_special x)%nat).
  { induction x as [|c x IH]; [reflexivity|].
    cbn [escapeMarkdown count_special].
    destruct (bool_decide (c ∈ markdown_special)); cbn [String.length]; rewrite IH; lia. }
  split; [|split; [apply Hlen|split]].
  - induction a as [|c a IH]; [reflexivity|].
    rewrite append_cons. cbn [escapeMarkdown].
    destruct (bool_decide (c ∈ markdown_special)); rewrite IH, !append_cons; reflexivity.
  - intros Heq. apply (f_equal String.length) in Heq. rewrite Hlen in Heq. lia.
  - induction a as [|c a IH]; [reflexivity|].
    cbn [escapeMarkdown count_special].
    destruct (bool_decide (c ∈ markdown_special)); [discriminate|].
    intros Hcount. rewrite IH by exact Hcount. reflexivity.
Qed.

End OpenaiMore.
